(** * A shallow embedding of [main.js], the catalog browser

    The script keeps four observable stores made by [createState], fetches
    the catalog, filters it by category, sorts it, shows it ten cards at a
    time and redraws the page whenever the visible window or the loading
    flag is written.

    Layout of the development:
    - [Host]: what the script takes from the JavaScript runtime and that
      cannot be written down from its source (Unicode case mapping, the
      locale's collation, the exponential printing of huge numbers);
    - [JS]: the array and number built-ins the script calls;
    - the stores, the page and the functions of [main.js];
    - [Sample]: a host to evaluate the functions on;
    - the vocabulary of the specification, then its properties. *)

From Stdlib Require Import QArith Qround Qabs Lqa.
From Stdlib Require OrdersEx.
From stdpp Require Import base numbers list strings pretty sorting.

Local Open Scope string_scope.
Local Open Scope list_scope.
Local Open Scope nat_scope.

(** ** The runtime *)

(** The built-ins of the runtime whose result depends on tables that are
    no part of the program.  [localeCompare] is required by ECMAScript to
    be a consistent comparator (a total preorder on strings); the two laws
    say so on the sign of its result. *)
Class Host := {
  toLowerCase : string → string;
  localeCompare : string → string → Z;
  (* Number::toString, which [toFixed] falls back to from 10^21 on. *)
  Number_toString : Q → string;
  localeCompare_antisym a b :
    Z.sgn (localeCompare b a) = (- Z.sgn (localeCompare a b))%Z;
  localeCompare_trans a b c :
    (localeCompare a b ≤ 0)%Z → (localeCompare b c ≤ 0)%Z →
    (localeCompare a c ≤ 0)%Z
}.

(** ** The data *)

(** A record of the catalog.  [price] is a finite double, kept as the
    rational it stands for: the script only subtracts two prices to read
    the sign, which is the sign of the exact difference, and prints them
    with [toFixed]. *)
Record Product := mkProduct {
  product_id : Z;
  title : string;
  price : Q;
  category : string;
  image : string
}.

(** ** Built-ins *)

Module JS.

(** The clamping of a relative index done by [Array.prototype.slice]. *)
Definition relative_index (len i : Z) : Z :=
  if (i <? 0)%Z then Z.max (len + i) 0 else Z.min i len.

(** [l.slice(start, end)] *)
Definition slice {A} (l : list A) (start end_ : Z) : list A :=
  let len := Z.of_nat (length l) in
  let k := relative_index len start in
  let final := relative_index len end_ in
  take (Z.to_nat (final - k)) (drop (Z.to_nat k) l).

Section Sort.
Context {A : Type} (comparefn : A → A → Q).

(** [x] goes in front of the first element it does not compare
    greater than; [x] stood before every element of [l]. *)
Fixpoint sort_insert (x : A) (l : list A) : list A :=
  match l with
  | [] => [x]
  | y :: l' =>
      if Qle_bool (comparefn x y) 0%Q then x :: y :: l'
      else y :: sort_insert x l'
  end.

(** [l.sort(comparefn)]: with a consistent comparator the result is
    the one stable ordering of [l], which insertion from the right
    computes. *)
Definition sort (l : list A) : list A := foldr sort_insert [] l.
End Sort.

(** [s.repeat(n)] *)
Fixpoint repeat_string (s : string) (n : nat) : string :=
  match n with O => "" | S n' => s +:+ repeat_string s n' end.

(** [l.join("")] *)
Definition join (l : list string) : string := foldr String.append "" l.

(** [x.toFixed(f)], by the steps of Number.prototype.toFixed. *)
Definition toFixed `{Host} (x : Q) (f : nat) : string :=
  let s := if Qlt_le_dec x 0%Q then "-" else "" in
  let x := Qabs x in
  if Qle_bool (inject_Z (10 ^ 21)) x then s +:+ Number_toString x
  else
    (* the integer n with n / 10^f closest to x, the larger of two *)
    let n := Qfloor (x * inject_Z (10 ^ Z.of_nat f) + (1 # 2))%Q in
    let m := pretty (Z.to_N n) in
    let m :=
      match f with
      | O => m
      | _ =>
          let k := String.length m in
          let m :=
            if decide (k ≤ f)%nat then repeat_string "0" (f + 1 - k) +:+ m
            else m in
          let k := String.length m in
          String.substring 0 (k - f) m +:+ "." +:+ String.substring (k - f) f m
      end in
    s +:+ m.

End JS.

(** ** [createState] *)

(** The functions the script passes to [subscribe].  A store keeps them by
    name; [call] below runs one. *)
Inductive Listener := RenderProducts.

(** The closure [createState] returns: the captured [state] and
    [listeners]. *)
Record Store (A : Type) := mkStore {
  state : A;
  listeners : list Listener
}.
Arguments mkStore {A} _ _.
Arguments state {A} _.
Arguments listeners {A} _.

Definition createState {A} (initialState : A) : Store A :=
  mkStore initialState [].

Definition getState {A} (s : Store A) : A := state s.

(** ** The page and the module state *)

Record Checkbox := mkCheckbox { checked : bool; value : string }.

(** The elements of the page the script reads or writes. *)
Record Document := mkDocument {
  products_innerHTML : string;          (* .products *)
  results_count_textContent : string;   (* #results-count *)
  load_more_display : string;           (* #load-more, style.display *)
  filter_checkboxes : list Checkbox;    (* .filter-checkbox *)
  sort_dropdown_value : string          (* #sort-dropdown *)
}.

(** The four stores of the module, by name. *)
Inductive StoreId :=
  ProductsState | VisibleProductsState | FiltersState | IsLoading.

(** What the run leaves behind for the properties to read: each write of a
    store, and each call of a listener with what the stores held when it
    was called. *)
Inductive Event :=
| Written (s : StoreId)
| Notified (s : StoreId) (l : Listener)
    (products visible : list Product) (loading : bool).

(** The module's variables and the page.  [history] is no variable of
    the script: it is the trace of the events above, oldest first. *)
Record World := mkWorld {
  productsState : Store (list Product);
  visibleProductsState : Store (list Product);
  filtersState : Store (list string);
  isLoading : Store bool;
  currentPage : Z;
  document : Document;
  history : list Event
}.

(** A store of the module, as the place it has in the [World]. *)
Record StoreRef (A : Type) := mkStoreRef {
  ref_id : StoreId;
  ref_get : World → Store A;
  ref_put : Store A → World → World
}.
Arguments ref_id {A} _.
Arguments ref_get {A} _.
Arguments ref_put {A} _.

Definition productsStateR : StoreRef (list Product) :=
  mkStoreRef _ ProductsState productsState
    (λ s w, mkWorld s (visibleProductsState w) (filtersState w) (isLoading w)
              (currentPage w) (document w) (history w)).
Definition visibleProductsStateR : StoreRef (list Product) :=
  mkStoreRef _ VisibleProductsState visibleProductsState
    (λ s w, mkWorld (productsState w) s (filtersState w) (isLoading w)
              (currentPage w) (document w) (history w)).
Definition filtersStateR : StoreRef (list string) :=
  mkStoreRef _ FiltersState filtersState
    (λ s w, mkWorld (productsState w) (visibleProductsState w) s (isLoading w)
              (currentPage w) (document w) (history w)).
Definition isLoadingR : StoreRef bool :=
  mkStoreRef _ IsLoading isLoading
    (λ s w, mkWorld (productsState w) (visibleProductsState w) (filtersState w) s
              (currentPage w) (document w) (history w)).

Definition with_document (d : Document) (w : World) : World :=
  mkWorld (productsState w) (visibleProductsState w) (filtersState w)
    (isLoading w) (currentPage w) d (history w).

Definition record_event (e : Event) (w : World) : World :=
  mkWorld (productsState w) (visibleProductsState w) (filtersState w)
    (isLoading w) (currentPage w) (document w) (history w ++ [e]).

(** The module as it stands once its top-level declarations have run,
    over the page [d]. *)
Definition initial_world (d : Document) : World :=
  mkWorld (createState []) (createState []) (createState [])
    (createState false) 0 d [].

(** ** [fetchProducts] *)

(** What the endpoint can answer: nothing (the request itself fails), or a
    response with a status and a body.  Two kinds of body are told apart:
    one that is no JSON at all, and one that is the catalog, a JSON array
    of product records.  A body that parses to anything else (the object
    of an error message, say) is left out.  On such a body the script goes
    on with a value that is no sequence of products and throws a TypeError
    where it first uses it as one: at [data.filter] (line 34), at [sort]
    (lines 43 and 45), or only in the handler, at [slice], once the value
    is in [productsState].  What is stated below of a [Response] is stated
    of these two kinds of body and of no other. *)
Inductive Body := NotJSON | Catalog (data : list Product).
Inductive Fetched := NetworkFailure | Response (status : Z) (body : Body).

(** [response.ok] *)
Definition ok (status : Z) : bool := (200 <=? status)%Z && (status <=? 299)%Z.

(** The rejections of the two awaited promises. *)
Inductive Error :=
| FetchRejected      (* fetch(...) rejects: no response *)
| JsonRejected.      (* response.json() rejects: the body does not parse *)

Definition fetchProducts `{Host} (filters : list string) (sortKey : string)
    (net : Fetched) : Error + list Product :=
  match net with
  | NetworkFailure => inl FetchRejected
  | Response _ NotJSON => inl JsonRejected
  | Response _ (Catalog data) =>
      (* Apply category filters *)
      let filteredProducts :=
        if decide (0 < length filters) then
          List.filter (λ product,
            existsb (λ filter,
              String.eqb (toLowerCase (category product)) (toLowerCase filter))
              filters) data
        else data in
      (* Apply sorting *)
      let filteredProducts :=
        if String.eqb sortKey "price" then
          JS.sort (λ a b, price a - price b)%Q filteredProducts
        else if String.eqb sortKey "name" then
          JS.sort (λ a b, inject_Z (localeCompare (title a) (title b)))
            filteredProducts
        else filteredProducts in
      inr filteredProducts
  end.

(** ** [renderProducts] *)

Definition nl : string := String (Ascii.ascii_of_nat 10) EmptyString.
Definition dq : string := String (Ascii.ascii_of_nat 34) EmptyString.
Definition heart : string := "♡".

(** The template literal of the card, line by line. *)
Definition card `{Host} (product : Product) : string :=
  JS.join [
    nl;
    "        <div class="; dq; "product-card"; dq; ">"; nl;
    "          <div class="; dq; "card-image-container"; dq; ">"; nl;
    "            <img src="; dq; image product; dq;
      " alt="; dq; title product; dq; " class="; dq; "card-image"; dq; ">"; nl;
    "          </div>"; nl;
    "          <div class="; dq; "card-body"; dq; ">"; nl;
    "           <h3 class="; dq; "card-title"; dq; ">"; title product; "</h3>"; nl;
    "            <p class="; dq; "card-price"; dq; ">$";
      JS.toFixed (price product) 2; "</p>"; nl;
    "          </div>"; nl;
    "          <div class="; dq; "card-footer"; dq; ">"; nl;
    "            <span class="; dq; "wishlist-icon"; dq; ">"; heart; "</span>"; nl;
    "        </div>"; nl;
    "        </div>"; nl;
    "      " ].

Definition set_results_count (text : string) (d : Document) : Document :=
  mkDocument (products_innerHTML d) text (load_more_display d)
    (filter_checkboxes d) (sort_dropdown_value d).

Definition set_products (html : string) (d : Document) : Document :=
  mkDocument html (results_count_textContent d) (load_more_display d)
    (filter_checkboxes d) (sort_dropdown_value d).

Definition set_load_more (display : string) (d : Document) : Document :=
  mkDocument (products_innerHTML d) (results_count_textContent d) display
    (filter_checkboxes d) (sort_dropdown_value d).

Definition renderProducts `{Host} (w : World) : World :=
  let visibleProducts := getState (visibleProductsState w) in
  let w := with_document
    (set_results_count (pretty (length visibleProducts) +:+ " Results")
       (document w)) w in
  if getState (isLoading w) then
    with_document (set_products "Loading..." (document w)) w
  else
    with_document
      (set_products (JS.join (map card visibleProducts)) (document w)) w.

(** ** [setState] and [subscribe] *)

Definition call `{Host} (l : Listener) (w : World) : World :=
  match l with RenderProducts => renderProducts w end.

(** One round of [listeners.forEach]: the call is recorded with what the
    listener finds in the stores, then made. *)
Definition notify `{Host} (s : StoreId) (w : World) (l : Listener) : World :=
  call l
    (record_event
       (Notified s l (getState (productsState w))
          (getState (visibleProductsState w)) (getState (isLoading w))) w).

Definition setState `{Host} {A} (r : StoreRef A) (newState : A) (w : World)
    : World :=
  let ls := listeners (ref_get r w) in
  let w := record_event (Written (ref_id r)) (ref_put r (mkStore newState ls) w) in
  foldl (notify (ref_id r)) w ls.

Definition subscribe {A} (r : StoreRef A) (listener : Listener) (w : World)
    : World :=
  let s := ref_get r w in
  ref_put r (mkStore (state s) (listeners s ++ [listener])) w.

(** ** The handlers *)

Definition loadMoreProducts `{Host} (w : World) : World :=
  let allProducts := getState (productsState w) in
  let visibleProducts := getState (visibleProductsState w) in
  let nextProducts :=
    JS.slice allProducts (Z.of_nat (length visibleProducts))
      (Z.of_nat (length visibleProducts) + 10) in
  let w := setState visibleProductsStateR (visibleProducts ++ nextProducts)%list w in
  (* Hide the button if all products are displayed *)
  if decide (length allProducts ≤ length (getState (visibleProductsState w)))%nat
  then with_document (set_load_more "none" (document w)) w
  else w.

(** How the promise of an [async] handler settles. *)
Inductive Settled := Fulfilled | Rejected (e : Error).

(** An [async] handler runs up to its [await], and its rest runs in one
    piece once the endpoint has answered.  Here a handler is run to its
    end against the answer [net]: no other handler runs in between. *)
Definition handleFilterChange `{Host} (net : Fetched) (w : World)
    : World * Settled :=
  let w := setState isLoadingR true w in
  let checkboxes := filter_checkboxes (document w) in
  let selectedFilters := map value (List.filter checked checkboxes) in
  let w := setState filtersStateR selectedFilters w in
  let sortedBy := sort_dropdown_value (document w) in
  match fetchProducts (getState (filtersState w)) sortedBy net with
  | inl e => (w, Rejected e)
  | inr updatedProducts =>
      let w := setState productsStateR updatedProducts w in
      let w := setState isLoadingR false w in
      let w := setState visibleProductsStateR (JS.slice updatedProducts 0 10) w in
      let w := with_document (set_load_more "block" (document w)) w in
      (w, Fulfilled)
  end.

Definition handleSortChange `{Host} (net : Fetched) (w : World)
    : World * Settled :=
  let sortedBy := sort_dropdown_value (document w) in
  match fetchProducts (getState (filtersState w)) sortedBy net with
  | inl e => (w, Rejected e)
  | inr updatedProducts =>
      let w := setState productsStateR updatedProducts w in
      let w := setState visibleProductsStateR (JS.slice updatedProducts 0 10) w in
      let w := with_document (set_load_more "block" (document w)) w in
      (w, Fulfilled)
  end.

(** [init], up to the registration of the three handlers on the page. *)
Definition init `{Host} (net : Fetched) (w : World) : World * Settled :=
  let w := subscribe visibleProductsStateR RenderProducts w in
  let w := subscribe isLoadingR RenderProducts w in
  let w := setState isLoadingR true w in
  match fetchProducts [] "price" net with
  | inl e => (w, Rejected e)
  | inr initialProducts =>
      let w := setState productsStateR initialProducts w in
      let w := setState visibleProductsStateR (JS.slice initialProducts 0 10) w in
      let w := setState isLoadingR false w in
      (w, Fulfilled)
  end.

(** ** The handlers, cut at their [await]

    The arguments of [fetchProducts] are read when the call is made, before
    the handler is suspended; what follows the [await] runs when the
    endpoint answers, on the world as it is then. *)

(** What a suspended call of [fetchProducts] was given. *)
Record Request := mkRequest {
  request_filters : list string;
  request_sortKey : string
}.

Definition handleFilterChange_request `{Host} (w : World) : World * Request :=
  let w := setState isLoadingR true w in
  let checkboxes := filter_checkboxes (document w) in
  let selectedFilters := map value (List.filter checked checkboxes) in
  let w := setState filtersStateR selectedFilters w in
  let sortedBy := sort_dropdown_value (document w) in
  (w, mkRequest (getState (filtersState w)) sortedBy).

Definition handleFilterChange_resume `{Host} (updatedProducts : list Product)
    (w : World) : World :=
  let w := setState productsStateR updatedProducts w in
  let w := setState isLoadingR false w in
  let w := setState visibleProductsStateR (JS.slice updatedProducts 0 10) w in
  with_document (set_load_more "block" (document w)) w.

Definition handleSortChange_request (w : World) : Request :=
  let sortedBy := sort_dropdown_value (document w) in
  mkRequest (getState (filtersState w)) sortedBy.

Definition handleSortChange_resume `{Host} (updatedProducts : list Product)
    (w : World) : World :=
  let w := setState productsStateR updatedProducts w in
  let w := setState visibleProductsStateR (JS.slice updatedProducts 0 10) w in
  with_document (set_load_more "block" (document w)) w.

(** ** The event loop

    Once [init] has registered the handlers, the page moves by the user's
    actions and by the answers of the endpoint, one at a time; a handler
    waiting for its answer does not keep another from starting, and the
    answers come in any order. *)

Inductive Awaiting :=
| AwaitFilter (q : Request)     (* a suspended handleFilterChange *)
| AwaitSort (q : Request).      (* a suspended handleSortChange *)

Record System := mkSystem {
  world : World;
  pending : list Awaiting
}.

Definition set_checkboxes (boxes : list Checkbox) (d : Document) : Document :=
  mkDocument (products_innerHTML d) (results_count_textContent d)
    (load_more_display d) boxes (sort_dropdown_value d).

Definition set_dropdown (v : string) (d : Document) : Document :=
  mkDocument (products_innerHTML d) (results_count_textContent d)
    (load_more_display d) (filter_checkboxes d) v.

Inductive Action :=
| ChangeFilter (boxes : list Checkbox)  (* the boxes after the user's click *)
| ChangeSort (v : string)               (* the option the user picked *)
| ClickLoadMore
| Answer (i : nat) (net : Fetched).     (* the [i]th suspended call settles *)

Definition settle `{Host} (p : Awaiting) (net : Fetched) (w : World) : World :=
  match p with
  | AwaitFilter q =>
      match fetchProducts (request_filters q) (request_sortKey q) net with
      | inl _ => w
      | inr updatedProducts => handleFilterChange_resume updatedProducts w
      end
  | AwaitSort q =>
      match fetchProducts (request_filters q) (request_sortKey q) net with
      | inl _ => w
      | inr updatedProducts => handleSortChange_resume updatedProducts w
      end
  end.

Definition step `{Host} (s : System) (a : Action) : System :=
  match a with
  | ChangeFilter boxes =>
      let w := with_document (set_checkboxes boxes (document (world s)))
                 (world s) in
      let wq := handleFilterChange_request w in
      mkSystem wq.1 (pending s ++ [AwaitFilter wq.2])
  | ChangeSort v =>
      let w := with_document (set_dropdown v (document (world s))) (world s) in
      mkSystem w (pending s ++ [AwaitSort (handleSortChange_request w)])
  | ClickLoadMore => mkSystem (loadMoreProducts (world s)) (pending s)
  | Answer i net =>
      match pending s !! i with
      | None => s
      | Some p => mkSystem (settle p net (world s)) (delete i (pending s))
      end
  end.

Definition exec `{Host} (acts : list Action) (s : System) : System :=
  foldl step s acts.

(** The page once [init] has been fulfilled: nothing is suspended, and the
    handlers are on their elements. *)
Definition started `{Host} (d : Document) (status : Z) (data : list Product)
    : System :=
  mkSystem (init (Response status (Catalog data)) (initial_world d)).1 [].

(** ** The filter panel

    The two listeners of [DOMContentLoaded] only touch the class list of
    [#filters], an ordered set of tokens. *)

(** [classList.add(token)] *)
Definition classList_add (token : string) (tokens : list string)
    : list string :=
  if decide (token ∈ tokens) then tokens else tokens ++ [token].

(** [classList.remove(token)] *)
Definition classList_remove (token : string) (tokens : list string)
    : list string :=
  filter (λ t, t ≠ token) tokens.

(** The click on [#menu-icon] and the click on [#close-filters], on the
    class list of [#filters]. *)
Definition open_filters (classList : list string) : list string :=
  classList_add "open" classList.

Definition close_filters (classList : list string) : list string :=
  classList_remove "open" classList.

(** ** A host to run the model on

    ASCII case mapping and the order of code units: what a browser does on
    the strings of the examples below.  Number::toString is given where
    [toFixed] calls it, on the numbers from 10^21 on: these are whole, and
    are printed with an exponent.  The digits are those of the number
    itself, which are the ones a browser prints whenever they read back as
    the same double, as for 10^21. *)
Module Sample.
Fixpoint drop_trailing_zeros (s : string) : string :=
  match s with
  | EmptyString => EmptyString
  | String c s' =>
      match drop_trailing_zeros s' with
      | EmptyString =>
          if String.eqb (String c EmptyString) "0" then EmptyString
          else String c EmptyString
      | r => String c r
      end
  end.

(** [d.ddde+n]: the first digit, the others behind a point if there are
    any, and the number of digits after the first as the exponent. *)
Definition exponent_form (x : Q) : string :=
  let digits := pretty (Z.to_N (Qfloor x)) in
  let e := pretty (String.length digits - 1) in
  match drop_trailing_zeros digits with
  | EmptyString => "0"
  | String d EmptyString => String d EmptyString +:+ "e+" +:+ e
  | String d ds => String d EmptyString +:+ "." +:+ ds +:+ "e+" +:+ e
  end.


Definition lower_ascii (c : Ascii.ascii) : Ascii.ascii :=
  let n := Ascii.nat_of_ascii c in
  if decide (65 ≤ n ≤ 90)%nat then Ascii.ascii_of_nat (n + 32) else c.

Fixpoint lower (s : string) : string :=
  match s with
  | EmptyString => EmptyString
  | String c s' => String (lower_ascii c) (lower s')
  end.

Definition compare_code_units (a b : string) : Z :=
  match OrdersEx.String_as_OT.compare a b with
  | Lt => -1
  | Eq => 0
  | Gt => 1
  end.

Lemma lt_irrefl a : ¬ OrdersEx.String_as_OT.lt a a.
Proof. apply (irreflexivity OrdersEx.String_as_OT.lt). Qed.

Lemma lt_asym a b :
  OrdersEx.String_as_OT.lt a b → ¬ OrdersEx.String_as_OT.lt b a.
Proof. intros Hab Hba. apply (lt_irrefl a). by etransitivity. Qed.

Lemma compare_code_units_antisym a b :
  Z.sgn (compare_code_units b a) = (- Z.sgn (compare_code_units a b))%Z.
Proof.
  unfold compare_code_units.
  destruct (OrdersEx.String_as_OT.compare_spec a b) as [E|L|L],
           (OrdersEx.String_as_OT.compare_spec b a) as [E'|L'|L'];
    try reflexivity; exfalso;
    unfold OrdersEx.String_as_OT.eq in *; subst;
    try (by eapply lt_irrefl); by eapply lt_asym.
Qed.

Lemma compare_code_units_le a b :
  (compare_code_units a b ≤ 0)%Z ↔ a = b ∨ OrdersEx.String_as_OT.lt a b.
Proof.
  unfold compare_code_units.
  destruct (OrdersEx.String_as_OT.compare_spec a b) as [E|L|L].
  - split; [by left | lia].
  - split; [by right | lia].
  - split; [lia | intros [->|L']; exfalso].
    + by eapply lt_irrefl.
    + by eapply lt_asym.
Qed.

Lemma compare_code_units_trans a b c :
  (compare_code_units a b ≤ 0)%Z → (compare_code_units b c ≤ 0)%Z →
  (compare_code_units a c ≤ 0)%Z.
Proof.
  rewrite !compare_code_units_le.
  intros [->|Hab] [->|Hbc]; auto.
  right. by etransitivity.
Qed.

Definition host : Host := {|
  toLowerCase := lower;
  localeCompare := compare_code_units;
  Number_toString := exponent_form;
  localeCompare_antisym := compare_code_units_antisym;
  localeCompare_trans := compare_code_units_trans
|}.

End Sample.

(** * The vocabulary of the specification *)

(** ** The product fetcher *)

(** The sort keys of the specification and the strings that select them. *)
Inductive SortKey := ByPrice | ByName.

Definition key_string (K : SortKey) : string :=
  match K with ByPrice => "price" | ByName => "name" end.

#[local] Instance Qeq_decision (x y : Q) : Decision (x == y)%Q := Qeq_dec x y.

(** [a] may stand before [b]. *)
Definition in_order {A} (comparefn : A → A → Q) (a b : A) : Prop :=
  (comparefn a b <= 0)%Q.

(** The retrieval fails: the request does, or the parsing of the body. *)
Definition retrieval_fails (net : Fetched) : Prop :=
  net = NetworkFailure ∨ ∃ status, net = Response status NotJSON.

Section Vocabulary.
Context `{Host}.

(** In the words of the specification: two categories match when they
    are equal up to case, and a product is kept when the filter set is
    empty or its category matches an entry of the set. *)
Definition same_ignoring_case (a b : string) : Prop :=
  toLowerCase a = toLowerCase b.

Definition selected (F : list string) (p : Product) : Prop :=
  F = [] ∨ ∃ f, f ∈ F ∧ same_ignoring_case (category p) f.

#[global] Instance same_ignoring_case_dec a b :
  Decision (same_ignoring_case a b).
Proof. unfold same_ignoring_case. apply _. Defined.

#[global] Instance selected_dec F p : Decision (selected F p).
Proof.
  refine (cast_if (decide
    (F = [] ∨ Exists (λ f, same_ignoring_case (category p) f) F)));
    unfold selected; rewrite Exists_exists in *; tauto.
Defined.

(** The order each key asks for between neighbours. *)
Definition rule (K : SortKey) (a b : Product) : Prop :=
  match K with
  | ByPrice => (price a <= price b)%Q
  | ByName => (localeCompare (title a) (title b) ≤ 0)%Z
  end.
End Vocabulary.

(** ** The stores and the sequences *)

#[local] Instance StoreId_eq_dec : EqDecision StoreId.
Proof. solve_decision. Defined.
#[local] Instance Listener_eq_dec : EqDecision Listener.
Proof. solve_decision. Defined.

(** The store an event is about. *)
Definition event_store (e : Event) : StoreId :=
  match e with Written s => s | Notified s _ _ _ _ => s end.

(** The calls of listener [l] made by writes of store [s] among [evs]. *)
Definition is_call (s : StoreId) (l : Listener) (e : Event) : bool :=
  match e with
  | Notified s' l' _ _ _ => bool_decide (s' = s) && bool_decide (l' = l)
  | Written _ => false
  end.

Definition calls (s : StoreId) (l : Listener) (evs : list Event) : nat :=
  length (List.filter (is_call s l) evs).

(** What a run from [w] to [w'] added to the history. *)
Definition new_events (w w' : World) : list Event :=
  drop (length (history w)) (history w').

(** A reference behaves like the variable it stands for. *)
Class Lawful {A} (r : StoreRef A) : Prop := {
  get_put s w : ref_get r (ref_put r s w) = s;
  put_history s w : history (ref_put r s w) = history w
}.

(** A part of the world that drawing and logging leave alone. *)
Definition off_page {X} (π : World → X) : Prop :=
  (∀ d w, π (with_document d w) = π w)
  ∧ (∀ e w, π (record_event e w) = π w).

(** What sets a sequence off. *)
Inductive Trigger := InitialLoad | FilterChange | SortChange.

Definition run `{Host} (t : Trigger) : Fetched → World → World * Settled :=
  match t with
  | InitialLoad => init
  | FilterChange => handleFilterChange
  | SortChange => handleSortChange
  end.

(** The window is a prefix, index by index, of the full sequence. *)
Definition window_is_prefix (w : World) : Prop :=
  getState (visibleProductsState w) `prefix_of` getState (productsState w).

(** The same, for what a listener found when it was called. *)
Definition window_is_prefix_at (e : Event) : Prop :=
  match e with
  | Notified _ _ products visible _ => visible `prefix_of` products
  | Written _ => True
  end.

(** ** The renderer *)

(** In the words of the specification: a price to two decimal places is
    its sign, the whole part of the nearest number of hundredths (the upper
    one of two), a point and the two digits left. *)
Definition hundredths (x : Q) : N :=
  Z.to_N (Qfloor (Qabs x * inject_Z 100 + (1 # 2))%Q).

Definition two_decimals (x : Q) : string :=
  let n := hundredths x in
  (if Qlt_le_dec x 0%Q then "-" else "")
  +:+ pretty (n `div` 100)%N +:+ "."
  +:+ String (pretty_N_char ((n `div` 10) `mod` 10)%N)
        (String (pretty_N_char (n `mod` 10)%N) "").






(** ** The page and the event loop *)

(** The page shows what the stores hold: the loading text or the cards of
    the window, and the length of the window in the counter. *)
Definition in_sync `{Host} (w : World) : Prop :=
  products_innerHTML (document w)
  = (if getState (isLoading w) then "Loading..."
     else JS.join (map card (getState (visibleProductsState w))))
  ∧ results_count_textContent (document w)
    = pretty (length (getState (visibleProductsState w))) +:+ " Results".

(** The window is the first [k] pages of the full sequence, [k] at least
    one. *)
Definition paged (w : World) : Prop :=
  ∃ k, 1 ≤ k
       ∧ getState (visibleProductsState w)
         = take (10 * k) (getState (productsState w)).

(** The listeners as [init] leaves them. *)
Definition registered_once (w : World) : Prop :=
  listeners (visibleProductsState w) = [RenderProducts]
  ∧ listeners (isLoading w) = [RenderProducts]
  ∧ listeners (productsState w) = []
  ∧ listeners (filtersState w) = [].

(** What every step of the event loop keeps. *)
Definition settled_page `{Host} (w : World) : Prop :=
  registered_once w ∧ paged w ∧ in_sync w.

(** The calls of listeners among [evs]. *)
Definition is_notified (e : Event) : bool :=
  match e with Notified _ _ _ _ _ => true | Written _ => false end.

Definition renders (evs : list Event) : nat :=
  length (List.filter is_notified evs).

(** The controls of the page the renderer does not draw. *)
Definition controls (w : World) : string * list Checkbox * string :=
  (load_more_display (document w), filter_checkboxes (document w),
   sort_dropdown_value (document w)).

(** A suspended filter change. *)
Definition is_filter_request (p : Awaiting) : bool :=
  match p with AwaitFilter _ => true | AwaitSort _ => false end.

(** An action that starts a filter change. *)
Definition is_filter_action (a : Action) : bool :=
  match a with ChangeFilter _ => true | _ => false end.

(** ** A small catalog to evaluate on *)

Module Examples.
Definition shirt : Product :=
  mkProduct 1 "Shirt" (2230 # 100) "men's clothing" "shirt.jpg".
Definition ring : Product :=
  mkProduct 2 "Ring" (168 # 1) "jewelery" "ring.jpg".
Definition cap : Product :=
  mkProduct 3 "Cap" (2230 # 100) "men's clothing" "cap.jpg".
Definition disk : Product :=
  mkProduct 4 "Disk" (64 # 1) "electronics" "disk.jpg".

Definition catalog : list Product := [shirt; ring; cap; disk].

(** The page before the script runs, nothing checked. *)
Definition page : Document :=
  mkDocument "" "" "block"
    [mkCheckbox false "electronics"; mkCheckbox false "Jewelery"] "price".

(** The same page once the user has ticked the second box. *)
Definition tick_jewelery (d : Document) : Document :=
  mkDocument (products_innerHTML d) (results_count_textContent d)
    (load_more_display d)
    [mkCheckbox false "electronics"; mkCheckbox true "Jewelery"]
    (sort_dropdown_value d).

Definition answer : Fetched := Response 200 (Catalog catalog).

(** The world once [init] has run against [answer]. *)
Definition loaded : World :=
  Eval vm_compute in (@init Sample.host answer (initial_world page)).1.

(** Twenty-five products, dearest first in the catalog. *)
Definition catalog25 : list Product :=
  map (λ i, mkProduct (Z.of_nat i) "P" (inject_Z (Z.of_nat (26 - i)))
              "c" "i.jpg")
    (seq 1 25).

Definition loaded25 : World :=
  Eval vm_compute in
    (@init Sample.host (Response 200 (Catalog catalog25))
       (initial_world page)).1.


End Examples.

(** * Properties *)

(** ** The built-ins *)

Section SliceFacts.
Context {A : Type}.
Implicit Types l : list A.

Lemma slice_nat l (i j : nat) :
  JS.slice l (Z.of_nat i) (Z.of_nat j) = take (j - i) (drop i l).
Proof.
  unfold JS.slice, JS.relative_index.
  rewrite !(proj2 (Z.ltb_ge _ _)) by lia.
  destruct (decide (length l ≤ i)%nat) as [Hi|Hi].
  - rewrite (drop_ge l i) by done.
    rewrite drop_ge by lia. by rewrite !take_nil.
  - replace (Z.to_nat (Z.of_nat i `min` Z.of_nat (length l))) with i by lia.
    destruct (decide (j ≤ length l)%nat).
    + f_equal. lia.
    + rewrite (take_ge _ (j - i)) by (rewrite length_drop; lia).
      apply take_ge. rewrite length_drop. lia.
Qed.

Lemma slice_first_page l : JS.slice l 0 10 = take 10 l.
Proof. apply (slice_nat l 0 10). Qed.

Lemma slice_next_page l (n : nat) :
  JS.slice l (Z.of_nat n) (Z.of_nat n + 10) = take 10 (drop n l).
Proof.
  replace (Z.of_nat n + 10)%Z with (Z.of_nat (n + 10)) by lia.
  rewrite slice_nat. f_equal. lia.
Qed.
End SliceFacts.

Section SortFacts.
Context {A : Type} (comparefn : A → A → Q).
Implicit Types l : list A.

Lemma Qle_bool_false x y : Qle_bool x y = false → ¬ (x <= y)%Q.
Proof. intros Hb Hle. apply Qle_bool_iff in Hle. congruence. Qed.

Lemma sort_insert_perm x l : JS.sort_insert comparefn x l ≡ₚ x :: l.
Proof.
  induction l as [|y l IH]; simpl; [done|].
  destruct (Qle_bool _ _); [done|].
  rewrite IH. apply Permutation_swap.
Qed.

Lemma sort_perm l : JS.sort comparefn l ≡ₚ l.
Proof.
  induction l as [|x l IH]; simpl; [done|].
  rewrite sort_insert_perm. by f_equiv.
Qed.

(** Equal elements keep their places: an insertion never carries [x]
    past an element of its own class. *)
Lemma sort_insert_filter (P : A → Prop) `{∀ a, Decision (P a)} x l :
  (∀ a b, P a → P b → in_order comparefn a b) →
  filter P (JS.sort_insert comparefn x l) = filter P (x :: l).
Proof.
  intros Hclass. induction l as [|y l IH]; simpl; [done|].
  destruct (Qle_bool _ _) eqn:Hxy; [done|].
  apply Qle_bool_false in Hxy.
  rewrite filter_cons, IH, !filter_cons.
  destruct (decide (P x)) as [Hx|Hx], (decide (P y)) as [Hy|Hy]; try done.
  destruct Hxy. by apply Hclass.
Qed.

Lemma sort_stable (P : A → Prop) `{∀ a, Decision (P a)} l :
  (∀ a b, P a → P b → in_order comparefn a b) →
  filter P (JS.sort comparefn l) = filter P l.
Proof.
  intros Hclass. induction l as [|x l IH]; simpl; [done|].
  rewrite sort_insert_filter by done.
  by rewrite !filter_cons, IH.
Qed.

(** With a total comparator the result is ordered. *)
Hypothesis total : ∀ a b, ¬ in_order comparefn a b → in_order comparefn b a.

Lemma sort_insert_sorted x l :
  Sorted (in_order comparefn) l → Sorted (in_order comparefn) (JS.sort_insert comparefn x l).
Proof.
  induction 1 as [|y l Hl IH Hhd]; simpl.
  - by repeat constructor.
  - destruct (Qle_bool _ _) eqn:Hxy.
    + apply Qle_bool_iff in Hxy. by repeat constructor.
    + apply Qle_bool_false, total in Hxy.
      constructor; [done|].
      destruct Hhd as [|z l Hyz]; simpl; [by constructor|].
      destruct (Qle_bool _ _); by constructor.
Qed.

Lemma sort_sorted l : Sorted (in_order comparefn) (JS.sort comparefn l).
Proof.
  induction l as [|x l IH]; simpl; [constructor|].
  by apply sort_insert_sorted.
Qed.
End SortFacts.

(** Adjacent elements of an ordered list are related. *)
Lemma Sorted_adjacent {A} (R : A → A → Prop) l l1 a b l2 :
  Sorted R l → l = l1 ++ a :: b :: l2 → R a b.
Proof.
  intros Hs ->. induction l1 as [|x l1 IH]; simpl in *.
  - apply Sorted_inv in Hs as [_ Hhd]. by inversion Hhd.
  - apply Sorted_inv in Hs as [Hs _]. by apply IH.
Qed.

(** Strings, and the decimal digits of a number. *)
Section StringFacts.
Implicit Types a b c : string.

Lemma string_app_cons x a b : String x a +:+ b = String x (a +:+ b).
Proof. reflexivity. Qed.

Lemma string_app_nil_l a : "" +:+ a = a.
Proof. reflexivity. Qed.

Lemma string_app_assoc a b c : (a +:+ b) +:+ c = a +:+ (b +:+ c).
Proof.
  induction a as [|x a IH]; [done|]. by rewrite !string_app_cons, IH.
Qed.


Lemma string_length_app a b :
  String.length (a +:+ b) = String.length a + String.length b.
Proof.
  induction a as [|x a IH]; [done|]. rewrite string_app_cons. simpl.
  by rewrite IH.
Qed.

Lemma substring_0_app a b : String.substring 0 (String.length a) (a +:+ b) = a.
Proof.
  induction a as [|x a IH]; [by destruct b|].
  rewrite string_app_cons. simpl. by rewrite IH.
Qed.

Lemma substring_skip a b m :
  String.substring (String.length a) m (a +:+ b) = String.substring 0 m b.
Proof.
  induction a as [|x a IH]; [done|]. rewrite string_app_cons. simpl.
  by rewrite IH.
Qed.

Lemma substring_all b : String.substring 0 (String.length b) b = b.
Proof. induction b as [|x b IH]; [done|]. simpl. by rewrite IH. Qed.

Lemma join_app (l1 l2 : list string) :
  JS.join (l1 ++ l2) = JS.join l1 +:+ JS.join l2.
Proof.
  induction l1 as [|a l1 IH]; [done|].
  simpl. by rewrite IH, string_app_assoc.
Qed.

Lemma pretty_N_go_app (x : N) s : pretty_N_go x s = pretty_N_go x "" +:+ s.
Proof.
  revert s. induction (N.lt_wf_0 x) as [x _ IH]; intros s.
  destruct (decide (x = 0)%N) as [->|Hx]; [done|].
  assert (x `div` 10 < x)%N as Hlt by (apply N.div_lt; lia).
  rewrite !(pretty_N_go_step x) by lia.
  rewrite (IH _ Hlt (String _ s)), (IH _ Hlt (String _ "")).
  by rewrite string_app_assoc.
Qed.

Lemma pretty_N_digit (x : N) :
  (x < 10)%N → pretty x = String (pretty_N_char x) "".
Proof.
  intros Hx. unfold pretty, pretty_N.
  destruct (decide (x = 0)%N) as [->|H0]; [done|].
  rewrite pretty_N_go_step by lia.
  by rewrite N.div_small, N.mod_small, pretty_N_go_0.
Qed.

Lemma pretty_N_snoc (x : N) :
  (10 ≤ x)%N →
  pretty x = pretty (x `div` 10)%N +:+ String (pretty_N_char (x `mod` 10)) "".
Proof.
  intros Hx. unfold pretty, pretty_N.
  assert (0 < x `div` 10)%N by (apply N.div_str_pos; lia).
  rewrite !decide_False by lia.
  rewrite pretty_N_go_step by lia. apply pretty_N_go_app.
Qed.

Lemma pretty_N_nonempty (x : N) : 0 < String.length (pretty x).
Proof.
  destruct (decide (x < 10)%N).
  - rewrite pretty_N_digit by done. simpl. lia.
  - rewrite pretty_N_snoc, string_length_app by lia. simpl. lia.
Qed.
End StringFacts.

Lemma Sorted_weaken {A} (R R' : A → A → Prop) l :
  (∀ a b, R a b → R' a b) → Sorted R l → Sorted R' l.
Proof.
  intros HR. induction 1 as [|x l _ IH Hhd]; constructor; [done|].
  destruct Hhd; constructor; auto.
Qed.

Lemma filter_all {A} (P : A → Prop) `{∀ a, Decision (P a)} (l : list A) :
  (∀ a, P a) → filter P l = l.
Proof.
  intros HP. induction l as [|x l IH]; [done|].
  by rewrite filter_cons_True, IH.
Qed.

Lemma List_filter_reflects {A} (f : A → bool) (P : A → Prop)
    `{∀ a, Decision (P a)} (l : list A) :
  (∀ a, f a = true ↔ P a) → List.filter f l = filter P l.
Proof.
  intros Hf. induction l as [|x l IH]; simpl; [done|].
  rewrite filter_cons, IH.
  destruct (f x) eqn:Hx, (decide (P x)) as [HP|HP]; try done.
  - destruct HP. by apply Hf.
  - apply Hf in HP. congruence.
Qed.

(** ** The product fetcher *)

Section Fetcher.
Context `{Host}.

(** The test the script hands to [some] decides the match. *)
Lemma some_matches F p :
  existsb (λ filter,
    String.eqb (toLowerCase (category p)) (toLowerCase filter)) F = true
  ↔ ∃ f, f ∈ F ∧ same_ignoring_case (category p) f.
Proof.
  unfold same_ignoring_case. split.
  - intros (f & Hin & Heq)%existsb_exists. exists f.
    by rewrite list_elem_of_In, <-String.eqb_eq.
  - intros (f & Hin & Heq). apply existsb_exists. exists f.
    by rewrite <-list_elem_of_In, String.eqb_eq.
Qed.

Lemma filter_step F data :
  (if decide (0 < length F) then
     List.filter (λ product,
       existsb (λ filter,
         String.eqb (toLowerCase (category product)) (toLowerCase filter))
         F) data
   else data) = filter (selected F) data.
Proof.
  destruct (decide (0 < length F)) as [Hlen|Hlen].
  - apply List_filter_reflects. intros p. rewrite some_matches.
    unfold selected. split; [by right|].
    intros [->|?]; [simpl in Hlen; lia | done].
  - symmetry. apply filter_all. left.
    destruct F; [done | simpl in Hlen; lia].
Qed.

Lemma by_price_in_order a b :
  in_order (λ a b, price a - price b)%Q a b ↔ rule ByPrice a b.
Proof. unfold in_order; simpl. split; lra. Qed.

Lemma by_name_in_order a b :
  in_order (λ a b, inject_Z (localeCompare (title a) (title b))) a b
  ↔ rule ByName a b.
Proof.
  unfold in_order; simpl.
  change 0%Q with (inject_Z 0). by rewrite <-Zle_Qle.
Qed.

(** What [fetchProducts] makes of a catalog, key by key. *)
Lemma fetchProducts_catalog F K status data :
  ∃ result,
    fetchProducts F K (Response status (Catalog data)) = inr result
    ∧ result ≡ₚ filter (selected F) data
    ∧ (K = "price" → Sorted (rule ByPrice) result
         ∧ ∀ q, filter (λ p, price p == q)%Q result
                = filter (λ p, price p == q)%Q (filter (selected F) data))
    ∧ (K = "name" → Sorted (rule ByName) result)
    ∧ (K ≠ "price" → K ≠ "name" → result = filter (selected F) data).
Proof.
  unfold fetchProducts. rewrite filter_step.
  eexists; split; [reflexivity|].
  destruct (String.eqb_spec K "price") as [->|Hprice];
    [|destruct (String.eqb_spec K "name") as [->|Hname]].
  - split; [apply sort_perm|]. split; [|done].
    intros _. split.
    + eapply Sorted_weaken; [apply by_price_in_order|].
      apply sort_sorted. unfold in_order. intros a b. lra.
    + intros q. apply sort_stable.
      unfold in_order. intros a b Ha Hb. lra.
  - split; [apply sort_perm|]. split; [done|]. split; [|done].
    intros _. eapply Sorted_weaken; [apply by_name_in_order|].
    apply sort_sorted. intros a b. rewrite !by_name_in_order; simpl.
    pose proof (localeCompare_antisym (title a) (title b)). lia.
  - repeat split; done.
Qed.
End Fetcher.

(** ** The stores *)

#[local] Instance productsStateR_lawful : Lawful productsStateR.
Proof. by split. Qed.
#[local] Instance visibleProductsStateR_lawful : Lawful visibleProductsStateR.
Proof. by split. Qed.
#[local] Instance filtersStateR_lawful : Lawful filtersStateR.
Proof. by split. Qed.
#[local] Instance isLoadingR_lawful : Lawful isLoadingR.
Proof. by split. Qed.

Section Stores.
Context `{Host}.

Lemma off_page_renderProducts {X} (π : World → X) w :
  off_page π → π (renderProducts w) = π w.
Proof.
  intros [Hdoc _]. unfold renderProducts.
  destruct (getState (isLoading _)); by rewrite !Hdoc.
Qed.

Lemma off_page_notify {X} (π : World → X) s w l :
  off_page π → π (notify s w l) = π w.
Proof.
  intros Hπ. unfold notify. destruct l; simpl.
  rewrite off_page_renderProducts by done. apply Hπ.
Qed.

Lemma off_page_notify_all {X} (π : World → X) s ls w :
  off_page π → π (foldl (notify s) w ls) = π w.
Proof.
  intros Hπ. revert w. induction ls as [|l ls IH]; intros w; simpl; [done|].
  by rewrite IH, off_page_notify.
Qed.

(** Writing store [r] changes the stores as the assignment does. *)
Lemma setState_off_page {A X} (π : World → X) (r : StoreRef A) v w :
  off_page π →
  π (setState r v w) = π (ref_put r (mkStore v (listeners (ref_get r w))) w).
Proof.
  intros Hπ. unfold setState.
  rewrite off_page_notify_all by done. apply Hπ.
Qed.

Lemma off_page_productsState : off_page productsState.
Proof. by split. Qed.
Lemma off_page_visibleProductsState : off_page visibleProductsState.
Proof. by split. Qed.
Lemma off_page_filtersState : off_page filtersState.
Proof. by split. Qed.
Lemma off_page_isLoading : off_page isLoading.
Proof. by split. Qed.

Lemma history_renderProducts w : history (renderProducts w) = history w.
Proof. unfold renderProducts. by destruct (getState (isLoading _)). Qed.

(** The calls of one [forEach] all see the same stores. *)
Lemma history_notify_all s ls w :
  history (foldl (notify s) w ls)
  = history w ++
      map (λ l, Notified s l (getState (productsState w))
                  (getState (visibleProductsState w))
                  (getState (isLoading w))) ls.
Proof.
  revert w. induction ls as [|l ls IH]; intros w; simpl.
  - by rewrite app_nil_r.
  - rewrite IH.
    rewrite (off_page_notify productsState) by apply off_page_productsState.
    rewrite (off_page_notify visibleProductsState)
      by apply off_page_visibleProductsState.
    rewrite (off_page_notify isLoading) by apply off_page_isLoading.
    unfold notify at 1. destruct l; simpl.
    rewrite history_renderProducts. simpl. by rewrite <-app_assoc.
Qed.

(** A write is logged, then every listener of the store is called, in
    the order of registration, with the new value in place. *)
Lemma history_setState {A} (r : StoreRef A) `{!Lawful r} v w :
  let w1 := ref_put r (mkStore v (listeners (ref_get r w))) w in
  history (setState r v w)
  = history w ++ Written (ref_id r) ::
      map (λ l, Notified (ref_id r) l (getState (productsState w1))
                  (getState (visibleProductsState w1))
                  (getState (isLoading w1)))
        (listeners (ref_get r w)).
Proof.
  simpl. unfold setState. rewrite history_notify_all. simpl.
  by rewrite put_history, <-app_assoc.
Qed.

Lemma new_events_app w w' evs :
  history w' = history w ++ evs → new_events w w' = evs.
Proof. intros Hw'. unfold new_events. by rewrite Hw', drop_app_length. Qed.

Lemma setState_events_about {A} (r : StoreRef A) `{!Lawful r} v w :
  ∃ evs, history (setState r v w) = history w ++ evs
         ∧ Forall (λ e, event_store e = ref_id r) evs.
Proof.
  eexists. split; [apply history_setState; done|].
  constructor; [done|]. apply Forall_map. by apply Forall_true.
Qed.
End Stores.

(** Projections of a written world, one store at a time. *)
Ltac stores_cbn :=
  cbn [ref_put ref_get productsStateR visibleProductsStateR filtersStateR
       isLoadingR productsState visibleProductsState filtersState isLoading
       with_document getState state listeners fst snd].

Ltac stores :=
  stores_cbn;
  repeat
    (first
       [ rewrite (setState_off_page productsState)
           by apply off_page_productsState
       | rewrite (setState_off_page visibleProductsState)
           by apply off_page_visibleProductsState
       | rewrite (setState_off_page filtersState)
           by apply off_page_filtersState
       | rewrite (setState_off_page isLoading) by apply off_page_isLoading ];
     stores_cbn).


(** The scenarios of the specification, run on the sample host. *)

(** A filter that differs from the category by case only still selects. *)
Example scenario_case_mismatch :
  @fetchProducts Sample.host ["JEWELERY"] "price" Examples.answer
  = inr [Examples.ring].
Proof. reflexivity. Qed.

(** Two filters, by name: the union of the two categories, by title. *)
Example scenario_two_filters_by_name :
  @fetchProducts Sample.host ["Electronics"; "men's clothing"] "name"
    Examples.answer
  = inr [Examples.cap; Examples.disk; Examples.shirt].
Proof. reflexivity. Qed.

(** The window starts with the ten cheapest; one more page makes twenty,
    a second one twenty-five, and the button goes. *)
Example scenario_load_more :
  map price (getState (visibleProductsState Examples.loaded25))
  = map (λ i, inject_Z (Z.of_nat i)) (seq 1 10)
  ∧ length (getState (visibleProductsState
      (@loadMoreProducts Sample.host Examples.loaded25))) = 20
  ∧ load_more_display (document (@loadMoreProducts Sample.host Examples.loaded25))
    = "block"
  ∧ length (getState (visibleProductsState
      (@loadMoreProducts Sample.host
         (@loadMoreProducts Sample.host Examples.loaded25)))) = 25
  ∧ load_more_display (document
      (@loadMoreProducts Sample.host
         (@loadMoreProducts Sample.host Examples.loaded25))) = "none".
Proof. by vm_compute. Qed.

(** ** [fetchProducts] *)

(** C1. For every filter set and sort key, a fetched catalog comes back
    as exactly its products whose category matches an entry of the filter
    set up to case (all of them when the set is empty), ordered by the
    key's rule. *)
Theorem fetchProducts_selects_and_orders `{Host}
    (F : list string) (K : SortKey) (status : Z) (data : list Product) :
  ∃ result,
    fetchProducts F (key_string K) (Response status (Catalog data)) = inr result
    ∧ result ≡ₚ filter (selected F) data
    ∧ (∀ p, p ∈ result ↔ p ∈ data ∧ selected F p)
    ∧ Sorted (rule K) result.
Proof.
  destruct (fetchProducts_catalog F (key_string K) status data)
    as (result & Hres & Hperm & Hprice & Hname & _).
  exists result. split; [done|]. split; [done|]. split.
  - intros p. rewrite Hperm, list_elem_of_filter. tauto.
  - destruct K; [by apply Hprice | by apply Hname].
Qed.

(** C5. Under the key "price" the result is non-decreasing in price
    between neighbours, and products of one price stand in the order they
    had in the catalog. *)
Theorem price_sort_nondecreasing_and_stable `{Host}
    (F : list string) (status : Z) (data : list Product) :
  ∃ result,
    fetchProducts F "price" (Response status (Catalog data)) = inr result
    ∧ (∀ l1 a b l2, result = l1 ++ a :: b :: l2 → (price a <= price b)%Q)
    ∧ (∀ q, filter (λ p, price p == q)%Q result
            = filter (λ p, price p == q)%Q (filter (selected F) data)).
Proof.
  destruct (fetchProducts_catalog F "price" status data)
    as (result & Hres & _ & Hprice & _).
  destruct Hprice as [Hsorted Hstable]; [done|].
  exists result. split; [done|]. split; [|done].
  intros l1 a b l2 Hsplit.
  by apply (Sorted_adjacent (rule ByPrice) result l1 a b l2).
Qed.

(** C10. Under any key other than "price" and "name" the kept products
    come back in the order the endpoint sent them. *)
Theorem other_keys_keep_catalog_order `{Host}
    (F : list string) (K : string) (status : Z) (data : list Product) :
  K ≠ "price" → K ≠ "name" →
  fetchProducts F K (Response status (Catalog data))
  = inr (filter (selected F) data).
Proof.
  intros Hprice Hname.
  destruct (fetchProducts_catalog F K status data)
    as (result & Hres & _ & _ & _ & Hother).
  by rewrite Hres, Hother.
Qed.

Lemma other_keys_keep_catalog_order_witness :
  @fetchProducts Sample.host ["ELECTRONICS"; "jewelery"] "rating"
    (Response 200 (Catalog Examples.catalog))
  = inr (filter (@selected Sample.host ["ELECTRONICS"; "jewelery"])
           Examples.catalog).
Proof.
  apply (@other_keys_keep_catalog_order Sample.host); discriminate.
Defined.

(** C4, as the script has it.  [fetchProducts] fails when the request
    itself fails and when the body of the response does not parse.  It
    never reads the status of the response: a body that is the catalog is
    filtered, sorted and returned, with the same result under every
    status. *)
Theorem fetchProducts_ignores_status `{Host} (F : list string) (K : string) :
  fetchProducts F K NetworkFailure = inl FetchRejected
  ∧ (∀ status, fetchProducts F K (Response status NotJSON) = inl JsonRejected)
  ∧ (∀ status data, ∃ result,
       fetchProducts F K (Response status (Catalog data)) = inr result
       ∧ result ≡ₚ filter (selected F) data
       ∧ (K = "price" → Sorted (rule ByPrice) result)
       ∧ (K = "name" → Sorted (rule ByName) result)
       ∧ ∀ status',
           fetchProducts F K (Response status' (Catalog data)) = inr result).
Proof.
  split_and!; [done..|].
  intros status data.
  destruct (fetchProducts_catalog F K status data)
    as (result & Hres & Hperm & Hprice & Hname & _).
  exists result. split_and!; try done.
  intros Hk. by apply Hprice.
Qed.

(** C4, as the specification has it, fails both ways: a response with a
    failure status and a catalog in its body is returned, and a response
    with a success status and a body that does not parse is a failure. *)
Lemma status_is_not_read :
  ok 500 = false
  ∧ @fetchProducts Sample.host [] "price"
      (Response 500 (Catalog [Examples.ring; Examples.disk]))
    = inr [Examples.disk; Examples.ring]
  ∧ ok 200 = true
  ∧ @fetchProducts Sample.host [] "price" (Response 200 NotJSON)
    = inl JsonRejected.
Proof. repeat split. Qed.

(** ** The three sequences *)

Section Sequences.
Context `{Host}.

Lemma retrieval_fails_inl net :
  retrieval_fails net → ∃ e, ∀ F K, fetchProducts F K net = inl e.
Proof.
  intros [->|[status ->]]; [by exists FetchRejected | by exists JsonRejected].
Qed.

Lemma fetchProducts_inr F K net result :
  fetchProducts F K net = inr result →
  ∃ status data, net = Response status (Catalog data).
Proof. destruct net as [|status [|data]]; [done..|]. eauto. Qed.

(** A sequence that is fulfilled leaves the first page in the window. *)
Lemma run_fulfilled t net w w' :
  run t net w = (w', Fulfilled) →
  getState (visibleProductsState w')
  = take 10 (getState (productsState w')).
Proof.
  destruct t; simpl.
  - unfold init. destruct (fetchProducts _ _ _) as [e|ps]; [done|].
    intros [= <-]. stores. apply slice_first_page.
  - unfold handleFilterChange.
    destruct (fetchProducts _ _ _) as [e|ps]; [done|].
    intros [= <-]. stores. apply slice_first_page.
  - unfold handleSortChange.
    destruct (fetchProducts _ _ _) as [e|ps]; [done|].
    intros [= <-]. stores. apply slice_first_page.
Qed.

(** [loadMoreProducts] on the stores. *)
Lemma loadMoreProducts_productsState w :
  productsState (loadMoreProducts w) = productsState w.
Proof.
  unfold loadMoreProducts. destruct (decide _); by stores.
Qed.

Lemma loadMoreProducts_visible w :
  getState (visibleProductsState (loadMoreProducts w))
  = getState (visibleProductsState w)
    ++ take 10 (drop (length (getState (visibleProductsState w)))
                  (getState (productsState w))).
Proof.
  unfold loadMoreProducts. rewrite slice_next_page.
  destruct (decide _); by stores.
Qed.

Lemma loadMoreProducts_isLoading w :
  isLoading (loadMoreProducts w) = isLoading w.
Proof.
  unfold loadMoreProducts. destruct (decide _); by stores.
Qed.

Lemma take_next_page {A} (l : list A) n :
  take n l ++ take 10 (drop (length (take n l)) l) = take (n + 10) l.
Proof.
  destruct (decide (n ≤ length l)) as [Hn|Hn].
  - rewrite length_take_le by done. apply take_take_drop.
  - rewrite (take_ge l n), (take_ge l (n + 10)) by lia.
    by rewrite drop_all, take_nil, app_nil_r.
Qed.

Lemma loadMoreProducts_iter N w n :
  getState (visibleProductsState w) = take n (getState (productsState w)) →
  getState (visibleProductsState (Nat.iter N loadMoreProducts w))
  = take (n + 10 * N) (getState (productsState w))
  ∧ productsState (Nat.iter N loadMoreProducts w) = productsState w.
Proof.
  intros Hw. induction N as [|N [IHv IHp]]; simpl.
  - split; [|done]. by rewrite Nat.add_0_r.
  - rewrite loadMoreProducts_visible, loadMoreProducts_productsState.
    rewrite IHv, IHp. split; [|done].
    rewrite take_next_page. f_equal. lia.
Qed.
End Sequences.



(** C7. When the retrieval fails, each sequence is rejected and leaves
    the full sequence and the window as they were; the loading flag is
    left true by the initial load and by a filter change, and as it was
    by a sort change. *)
Theorem failed_fetch_leaves_products `{Host}
    (t : Trigger) (net : Fetched) (w : World) :
  retrieval_fails net →
  ∃ w' e,
    run t net w = (w', Rejected e)
    ∧ getState (productsState w') = getState (productsState w)
    ∧ getState (visibleProductsState w') = getState (visibleProductsState w)
    ∧ getState (isLoading w')
      = match t with
        | InitialLoad | FilterChange => true
        | SortChange => getState (isLoading w)
        end.
Proof.
  intros [e He]%retrieval_fails_inl.
  destruct t; simpl.
  - unfold init. rewrite He. eexists _, e. split; [done|]. by stores.
  - unfold handleFilterChange. rewrite He. eexists _, e. split; [done|].
    by stores.
  - unfold handleSortChange. rewrite He. by eexists _, e.
Qed.

Lemma failed_fetch_leaves_products_witness :
  ∃ w' e,
    @run Sample.host FilterChange NetworkFailure Examples.loaded
    = (w', Rejected e)
    ∧ getState (productsState w') = getState (productsState Examples.loaded)
    ∧ getState (visibleProductsState w')
      = getState (visibleProductsState Examples.loaded)
    ∧ getState (isLoading w') = true.
Proof.
  apply (@failed_fetch_leaves_products Sample.host FilterChange NetworkFailure
           Examples.loaded).
  by left.
Defined.

(** C8. A sort change, fulfilled or rejected, leaves the loading-flag
    store as it was, and nothing it adds to the history is a write of
    that store or a call made for it. *)
Theorem sort_change_spares_loading_flag `{Host} (net : Fetched) (w : World) :
  isLoading (handleSortChange net w).1 = isLoading w
  ∧ ∃ evs,
      history (handleSortChange net w).1 = history w ++ evs
      ∧ Forall (λ e, event_store e ≠ IsLoading) evs.
Proof.
  unfold handleSortChange.
  destruct (fetchProducts _ _ _) as [e|ps]; simpl.
  - split; [done|]. exists []. by rewrite app_nil_r.
  - split; [by stores|].
    destruct (setState_events_about productsStateR ps w) as (evs1 & H1 & F1).
    destruct (setState_events_about visibleProductsStateR (JS.slice ps 0 10)
                (setState productsStateR ps w)) as (evs2 & H2 & F2).
    exists (evs1 ++ evs2). rewrite H2, H1, <-app_assoc. split; [done|].
    apply Forall_app; split;
      (eapply Forall_impl; [eassumption|]); by intros ev ->.
Qed.

(** ** The window as a prefix of the full sequence *)

Section Window.
Context `{Host}.

Lemma loadMoreProducts_window_is_prefix w :
  window_is_prefix w → window_is_prefix (loadMoreProducts w).
Proof.
  unfold window_is_prefix.
  rewrite loadMoreProducts_visible, loadMoreProducts_productsState.
  intros [k Hk]. rewrite Hk.
  rewrite drop_app_length. apply prefix_app, prefix_take.
Qed.

(** Between two sequences the window is a prefix of the full sequence,
    however the sequence before ended. *)
Lemma run_window_is_prefix t net w :
  window_is_prefix w → window_is_prefix (run t net w).1.
Proof.
  unfold window_is_prefix. intros Hw.
  destruct t; simpl.
  - unfold init. destruct (fetchProducts _ _ _) as [e|ps]; stores; [done|].
    rewrite slice_first_page. apply prefix_take.
  - unfold handleFilterChange.
    destruct (fetchProducts _ _ _) as [e|ps]; stores; [done|].
    rewrite slice_first_page. apply prefix_take.
  - unfold handleSortChange.
    destruct (fetchProducts _ _ _) as [e|ps]; stores; [done|].
    rewrite slice_first_page. apply prefix_take.
Qed.

Lemma Forall_notified (P : Event → Prop) s (ps vs : list Product) b ls :
  (∀ l, P (Notified s l ps vs b)) →
  Forall P (map (λ l, Notified s l ps vs b) ls).
Proof. intros HP. apply Forall_map. by apply Forall_true. Qed.

(** The initial load writes the stores in an order that keeps the
    window a prefix at every call of a listener: full sequence, window,
    then the flag. *)
Lemma init_calls_see_prefix net w :
  window_is_prefix w → listeners (productsState w) = [] →
  Forall window_is_prefix_at (new_events w (init net w).1).
Proof.
  unfold window_is_prefix, init. intros Hw Hnone.
  set (w0 := subscribe isLoadingR RenderProducts
               (subscribe visibleProductsStateR RenderProducts w)).
  assert (history w0 = history w) as Hh by done.
  assert (productsState w0 = productsState w) as Hp by done.
  assert (getState (visibleProductsState w0)
          = getState (visibleProductsState w)) as Hv by done.
  unfold new_events. rewrite <-Hh. clearbody w0.
  destruct (fetchProducts _ _ _) as [e|ps]; cbn [fst].
  - rewrite history_setState by apply _. rewrite drop_app_length.
    constructor; [done|]. apply Forall_notified. intros l. simpl.
    by rewrite Hp, Hv.
  - rewrite !history_setState by apply _. stores.
    rewrite <-!app_assoc, drop_app_length. rewrite Hp, Hv, Hnone. simpl.
    rewrite slice_first_page.
    repeat first
      [ apply Forall_cons; split; [simpl; try done; try apply prefix_take|]
      | apply Forall_app; split
      | apply Forall_notified; intros; simpl; try done; apply prefix_take
      | apply Forall_nil_2 ].
Qed.

(** So does a sort change. *)
Lemma sort_change_calls_see_prefix net w :
  window_is_prefix w → listeners (productsState w) = [] →
  Forall window_is_prefix_at (new_events w (handleSortChange net w).1).
Proof.
  unfold window_is_prefix, handleSortChange, new_events. intros Hw Hnone.
  destruct (fetchProducts _ _ _) as [e|ps]; cbn [fst].
  - rewrite drop_all. constructor.
  - cbn [history with_document].
    rewrite !history_setState by apply _. stores.
    rewrite <-!app_assoc, drop_app_length. rewrite Hnone. simpl.
    rewrite slice_first_page.
    repeat first
      [ apply Forall_cons; split; [simpl; try done; try apply prefix_take|]
      | apply Forall_notified; intros; simpl; try done; apply prefix_take
      | apply Forall_nil_2 ].
Qed.
End Window.

(** C3, at the input where the script breaks it.  After the initial load
    of four products the user ticks one category.  The filter change
    writes the shortened full sequence, then the loading flag, and only
    then the window: the call of [renderProducts] for the flag finds the
    old window of four over a full sequence of one. *)
Theorem filter_change_shows_stale_window :
  let w := with_document (Examples.tick_jewelery (document Examples.loaded))
             Examples.loaded in
  window_is_prefix w
  ∧ new_events w (@handleFilterChange Sample.host Examples.answer w).1 !! 5
    = Some (Notified IsLoading RenderProducts [Examples.ring]
              [Examples.shirt; Examples.cap; Examples.disk; Examples.ring]
              false)
  ∧ ¬ [Examples.shirt; Examples.cap; Examples.disk; Examples.ring]
      `prefix_of` [Examples.ring]
  ∧ ¬ length [Examples.shirt; Examples.cap; Examples.disk; Examples.ring]
      ≤ length [Examples.ring].
Proof.
  split; [by exists []|]. split; [by vm_compute|].
  split; [|simpl; lia].
  intros Hp%prefix_length. simpl in Hp. lia.
Qed.

(** ** The renderer *)

Section Renderer.
Context `{Host}.

(** The padding and the cut of [toFixed] for two digits. *)
Lemma point_before_last_two (n : N) :
  (let m := pretty n in
   let k := String.length m in
   let m := if decide (k ≤ 2) then JS.repeat_string "0" (2 + 1 - k) +:+ m
            else m in
   let k := String.length m in
   String.substring 0 (k - 2) m +:+ "." +:+ String.substring (k - 2) 2 m)
  = pretty (n `div` 100)%N +:+ "."
    +:+ String (pretty_N_char ((n `div` 10) `mod` 10)%N)
          (String (pretty_N_char (n `mod` 10)%N) "").
Proof.
  destruct (decide (n < 10)%N) as [H10|H10];
    [|destruct (decide (n < 100)%N) as [H100|H100]].
  - rewrite (pretty_N_digit n) by done.
    rewrite (N.div_small n 100), (N.div_small n 10), (N.mod_small n 10) by lia.
    reflexivity.
  - assert (n `div` 10 < 10)%N by (apply N.Div0.div_lt_upper_bound; lia).
    rewrite (pretty_N_snoc n), (pretty_N_digit (n `div` 10)) by lia.
    rewrite (N.div_small n 100), (N.mod_small (n `div` 10) 10) by lia.
    reflexivity.
  - assert (10 ≤ n `div` 10)%N by (apply N.div_le_lower_bound; lia).
    rewrite (pretty_N_snoc n), (pretty_N_snoc (n `div` 10)) by lia.
    rewrite N.Div0.div_div. change (10 * 10)%N with 100%N.
    rewrite string_app_assoc, string_app_cons, string_app_nil_l.
    cbv zeta.
    set (P := pretty (n `div` 100)%N).
    set (tail := String _ (String _ "")).
    pose proof (pretty_N_nonempty (n `div` 100)%N) as HP. fold P in HP.
    rewrite string_length_app. change (String.length tail) with 2.
    rewrite decide_False by lia.
    rewrite string_length_app. change (String.length tail) with 2.
    replace (String.length P + 2 - 2) with (String.length P) by lia.
    by rewrite substring_0_app, substring_skip.
Qed.

(** Below 10^21, [toFixed(2)] prints the price to two decimal places. *)
Lemma toFixed_two_decimals (x : Q) :
  (Qabs x < inject_Z (10 ^ 21))%Q → JS.toFixed x 2 = two_decimals x.
Proof.
  intros Hx. unfold JS.toFixed, two_decimals, hundredths.
  destruct (Qle_bool _ (Qabs x)) eqn:Hbig.
  { apply Qle_bool_iff in Hbig. destruct (Qlt_not_le _ _ Hx Hbig). }
  f_equal. apply point_before_last_two.
Qed.




End Renderer.



(** ** Registration *)

Section Registration.
Context `{Host}.

Lemma calls_written s l s' evs :
  calls s l (Written s' :: evs) = calls s l evs.
Proof. reflexivity. Qed.

Lemma calls_notified s l (ps vs : list Product) b ls :
  calls s l (map (λ l', Notified s l' ps vs b) ls)
  = count_occ Listener_eq_dec ls l.
Proof.
  unfold calls. induction ls as [|l' ls IH]; simpl; [done|].
  rewrite bool_decide_true by done. simpl.
  destruct (Listener_eq_dec l' l) as [->|Hne].
  - rewrite bool_decide_true by done. simpl. by rewrite IH.
  - by rewrite bool_decide_false.
Qed.

Lemma listeners_subscribe {A} (r : StoreRef A) `{!Lawful r} l w :
  listeners (ref_get r (subscribe r l w)) = listeners (ref_get r w) ++ [l].
Proof. unfold subscribe. by rewrite get_put. Qed.

Lemma listeners_subscribe_iter {A} (r : StoreRef A) `{!Lawful r} l w k :
  count_occ Listener_eq_dec
    (listeners (ref_get r (Nat.iter k (subscribe r l) w))) l
  = count_occ Listener_eq_dec (listeners (ref_get r w)) l + k.
Proof.
  induction k as [|k IH]; simpl; [lia|].
  rewrite listeners_subscribe by done.
  rewrite count_occ_app, IH. simpl.
  destruct (Listener_eq_dec l l); [lia | done].
Qed.

(** [init] registers one listener on the window and one on the flag. *)
Lemma init_listeners net w :
  listeners (visibleProductsState (init net w).1)
  = listeners (visibleProductsState w) ++ [RenderProducts]
  ∧ listeners (isLoading (init net w).1)
    = listeners (isLoading w) ++ [RenderProducts]
  ∧ listeners (productsState (init net w).1) = listeners (productsState w)
  ∧ listeners (filtersState (init net w).1) = listeners (filtersState w).
Proof.
  unfold init. destruct (fetchProducts _ _ _) as [e|ps]; by stores.
Qed.
End Registration.

(** C9, as the script has it.  [subscribe] registers whatever it is given:
    a write calls a listener once for each time it was registered, so
    after [k] more registrations of [l] a write calls [l] [k] more times.
    [init] registers [renderProducts] once on the window and once on the
    loading flag, and nothing on the two other stores. *)
Theorem write_calls_once_per_registration `{Host} {A}
    (r : StoreRef A) (l : Listener) (v : A) (w : World) (k : nat) :
  Lawful r →
  (let w' := Nat.iter k (subscribe r l) w in
   calls (ref_id r) l (new_events w' (setState r v w'))
   = count_occ Listener_eq_dec (listeners (ref_get r w)) l + k)
  ∧ ∀ net d,
      let w0 := (init net (initial_world d)).1 in
      listeners (visibleProductsState w0) = [RenderProducts]
      ∧ listeners (isLoading w0) = [RenderProducts]
      ∧ listeners (productsState w0) = []
      ∧ listeners (filtersState w0) = [].
Proof.
  intros Hr. split.
  - simpl. erewrite new_events_app; [|by apply history_setState].
    rewrite calls_written, calls_notified. by apply listeners_subscribe_iter.
  - intros net d. simpl.
    by destruct (init_listeners net (initial_world d)) as (-> & -> & -> & ->).
Qed.

Lemma write_calls_once_per_registration_witness :
  calls VisibleProductsState RenderProducts
    (new_events
       (Nat.iter 1 (subscribe visibleProductsStateR RenderProducts)
          Examples.loaded)
       (@setState Sample.host _ visibleProductsStateR [Examples.ring]
          (Nat.iter 1 (subscribe visibleProductsStateR RenderProducts)
             Examples.loaded)))
  = count_occ Listener_eq_dec
      (listeners (visibleProductsState Examples.loaded)) RenderProducts + 1.
Proof.
  apply (@write_calls_once_per_registration Sample.host _
           visibleProductsStateR RenderProducts [Examples.ring]
           Examples.loaded 1).
  apply _.
Defined.

(** C9, as the specification has it, fails: registered twice on the
    window store, [renderProducts] runs twice at one write. *)
Lemma second_registration_draws_twice :
  calls VisibleProductsState RenderProducts
    (new_events
       (subscribe visibleProductsStateR RenderProducts
          (subscribe visibleProductsStateR RenderProducts
             (initial_world Examples.page)))
       (@setState Sample.host _ visibleProductsStateR [Examples.ring]
          (subscribe visibleProductsStateR RenderProducts
             (subscribe visibleProductsStateR RenderProducts
                (initial_world Examples.page)))))
  = 2.
Proof. by vm_compute. Qed.

(** * More of the script *)

(** ** The stores, read and written *)

Section StoreLaws.
Context `{Host}.

Lemma document_renderProducts_controls w :
  controls (renderProducts w) = controls w.
Proof. unfold renderProducts. by destruct (getState (isLoading _)). Qed.

Lemma controls_notify_all s ls w :
  controls (foldl (notify s) w ls) = controls w.
Proof.
  revert w. induction ls as [|l ls IH]; intros w; simpl; [done|].
  rewrite IH. unfold notify. destruct l; simpl.
  by rewrite document_renderProducts_controls.
Qed.

(** A write leaves the controls of the page alone. *)
Lemma controls_setState {A} (r : StoreRef A) v w :
  (∀ s w0, document (ref_put r s w0) = document w0) →
  controls (setState r v w) = controls w.
Proof.
  intros Hdoc. unfold setState. rewrite controls_notify_all.
  unfold controls. simpl. by rewrite Hdoc.
Qed.
End StoreLaws.

(** X1. What [setState] has written [getState] reads, whatever the
    listeners did in between; the write keeps the listeners of the store,
    and every part of the world that the assignment, the drawing and the
    logging leave alone is as it was. *)
Theorem setState_then_getState `{Host} {A}
    (r : StoreRef A) (v : A) (w : World) :
  Lawful r → off_page (ref_get r) →
  getState (ref_get r (setState r v w)) = v
  ∧ listeners (ref_get r (setState r v w)) = listeners (ref_get r w)
  ∧ ∀ X (π : World → X),
      off_page π → (∀ s w0, π (ref_put r s w0) = π w0) →
      π (setState r v w) = π w.
Proof.
  intros Hr Hoff. split; [|split].
  - rewrite (setState_off_page (ref_get r)) by done. by rewrite get_put.
  - rewrite (setState_off_page (ref_get r)) by done. by rewrite get_put.
  - intros X π Hπ Hput. by rewrite (setState_off_page π).
Qed.

Lemma setState_then_getState_witness :
  getState (ref_get visibleProductsStateR
    (@setState Sample.host _ visibleProductsStateR [Examples.ring]
       Examples.loaded)) = [Examples.ring]
  ∧ listeners (ref_get visibleProductsStateR
      (@setState Sample.host _ visibleProductsStateR [Examples.ring]
         Examples.loaded))
    = listeners (ref_get visibleProductsStateR Examples.loaded)
  ∧ ∀ X (π : World → X),
      off_page π →
      (∀ s w0, π (ref_put visibleProductsStateR s w0) = π w0) →
      π (@setState Sample.host _ visibleProductsStateR [Examples.ring]
           Examples.loaded) = π Examples.loaded.
Proof.
  apply (@setState_then_getState Sample.host _ visibleProductsStateR
           [Examples.ring] Examples.loaded).
  - apply _.
  - by split.
Defined.

(** X2. A write of the window or of the loading flag is followed by one
    call of each listener of that store, in the order of registration,
    and each of them reads the new value. *)
Theorem listeners_called_after_the_write `{Host}
    (v : list Product) (b : bool) (w : World) :
  new_events w (setState visibleProductsStateR v w)
  = Written VisibleProductsState ::
      map (λ l, Notified VisibleProductsState l
                  (getState (productsState w)) v (getState (isLoading w)))
        (listeners (visibleProductsState w))
  ∧ new_events w (setState isLoadingR b w)
    = Written IsLoading ::
        map (λ l, Notified IsLoading l (getState (productsState w))
                    (getState (visibleProductsState w)) b)
          (listeners (isLoading w)).
Proof.
  split; (erewrite new_events_app; [reflexivity|]);
    by rewrite history_setState by apply _.
Qed.

(** ** [fetchProducts], further *)

Section SortMore.
Context {A : Type} (comparefn : A → A → Q).

(** Nothing moves in a list that is in order already. *)
Lemma sort_of_sorted (l : list A) :
  Sorted (in_order comparefn) l → JS.sort comparefn l = l.
Proof.
  induction 1 as [|x l Hl IH Hhd]; simpl; [done|].
  rewrite IH. destruct Hhd as [|y l Hxy]; simpl; [done|].
  unfold in_order in Hxy. apply Qle_bool_iff in Hxy. by rewrite Hxy.
Qed.
End SortMore.

Lemma filter_all_elem {A} (P : A → Prop) `{∀ a, Decision (P a)} (l : list A) :
  (∀ a, a ∈ l → P a) → filter P l = l.
Proof.
  induction l as [|x l IH]; intros HP; [done|].
  rewrite filter_cons_True by (apply HP; left).
  f_equal. apply IH. intros a Ha. apply HP. by right.
Qed.

Lemma StronglySorted_lookup {A} (R : A → A → Prop) (l : list A) i j a b :
  StronglySorted R l → i < j → l !! i = Some a → l !! j = Some b → R a b.
Proof.
  intros Hs. revert i j. induction Hs as [|x l Hs IH Hall]; intros i j Hij Ha Hb.
  - done.
  - destruct j as [|j]; [lia|]. destruct i as [|i]; simpl in *.
    + simplify_eq. rewrite Forall_forall in Hall.
      apply Hall. by eapply list_elem_of_lookup_2.
    + apply (IH i j); [lia|done..].
Qed.

Section FetcherMore.
Context `{Host}.

Lemma rule_transitive K : Transitive (rule K).
Proof.
  intros a b c. destruct K; simpl.
  - apply Qle_trans.
  - apply localeCompare_trans.
Qed.

(** A title compares equal to itself and to what compares equal to it,
    both ways round. *)
Lemma localeCompare_flip a b : localeCompare a b = 0%Z → localeCompare b a = 0%Z.
Proof.
  intros Hab. pose proof (localeCompare_antisym a b) as Hs.
  rewrite Hab in Hs. simpl in Hs. by apply Z.sgn_null_iff.
Qed.

Lemma selected_iff F F' p :
  (∀ f, f ∈ F → ∃ f', f' ∈ F' ∧ same_ignoring_case f f') →
  (∀ f', f' ∈ F' → ∃ f, f ∈ F ∧ same_ignoring_case f' f) →
  selected F p ↔ selected F' p.
Proof.
  unfold selected, same_ignoring_case. intros H1 H2. split.
  - intros [->|(f & Hf & Heq)].
    + left. destruct F' as [|f' F']; [done|].
      destruct (H2 f') as (f & Hf & _); [by left|]. by inversion Hf.
    + right. destruct (H1 f Hf) as (f' & Hf' & Heq'). exists f'.
      split; [done|]. congruence.
  - intros [->|(f' & Hf' & Heq)].
    + left. destruct F as [|f F]; [done|].
      destruct (H1 f) as (f' & Hf' & _); [by left|]. by inversion Hf'.
    + right. destruct (H2 f' Hf') as (f & Hf & Heq'). exists f.
      split; [done|]. congruence.
Qed.

(** The same, in a form that is decided by running through the lists. *)
Lemma matches_each F F' :
  Forall (λ f, Exists (λ f', same_ignoring_case f f') F') F →
  ∀ f, f ∈ F → ∃ f', f' ∈ F' ∧ same_ignoring_case f f'.
Proof.
  rewrite Forall_forall. intros HF f Hf. apply Exists_exists. by apply HF.
Qed.
End FetcherMore.

(** X3. The filters act as a set of categories up to case: two filter
    lists whose entries match each other, whatever their order, their
    repetitions and their case, give the same answer. *)
Theorem fetchProducts_filter_set `{Host}
    (F F' : list string) (K : string) (net : Fetched) :
  (∀ f, f ∈ F → ∃ f', f' ∈ F' ∧ same_ignoring_case f f') →
  (∀ f', f' ∈ F' → ∃ f, f ∈ F ∧ same_ignoring_case f' f) →
  fetchProducts F K net = fetchProducts F' K net.
Proof.
  intros H1 H2. destruct net as [|status [|data]]; [done..|].
  unfold fetchProducts. rewrite !filter_step.
  replace (filter (selected F') data) with (filter (selected F) data); [done|].
  apply list_filter_iff. intros p. by apply selected_iff.
Qed.

Lemma fetchProducts_filter_set_witness :
  @fetchProducts Sample.host ["Jewelery"; "ELECTRONICS"; "jewelery"] "name"
    Examples.answer
  = @fetchProducts Sample.host ["electronics"; "JEWELERY"] "name"
      Examples.answer.
Proof.
  apply (@fetchProducts_filter_set Sample.host).
  - apply matches_each. apply (bool_decide_unpack _). vm_compute. exact I.
  - apply matches_each. apply (bool_decide_unpack _). vm_compute. exact I.
Defined.

(** X4. What [fetchProducts] returns it returns again when it is given
    back as the catalog, with the same filters and key: filtering and
    sorting a second time change nothing. *)
Theorem fetchProducts_of_its_result `{Host}
    (F : list string) (K : string) (net : Fetched) (result : list Product)
    (status : Z) :
  fetchProducts F K net = inr result →
  fetchProducts F K (Response status (Catalog result)) = inr result.
Proof.
  intros Hres.
  destruct (fetchProducts_inr _ _ _ _ Hres) as (status0 & data & ->).
  destruct (fetchProducts_catalog F K status0 data)
    as (r & Hr & Hperm & Hprice & Hname & Hother).
  assert (r = result) as -> by congruence.
  unfold fetchProducts. rewrite filter_step.
  rewrite (filter_all_elem (selected F) result).
  2: { intros p Hp. rewrite Hperm in Hp.
       by apply list_elem_of_filter in Hp as [? _]. }
  destruct (String.eqb_spec K "price") as [->|?];
    [|destruct (String.eqb_spec K "name") as [->|?]]; [| |done].
  - destruct Hprice as [Hsorted _]; [done|]. f_equal.
    apply sort_of_sorted. eapply Sorted_weaken; [|exact Hsorted].
    intros a b. by apply by_price_in_order.
  - f_equal. apply sort_of_sorted.
    eapply Sorted_weaken; [|by apply Hname].
    intros a b. by apply by_name_in_order.
Qed.

Lemma fetchProducts_of_its_result_witness :
  @fetchProducts Sample.host ["men's clothing"; "Electronics"] "price"
    (Response 404
       (Catalog [Examples.shirt; Examples.cap; Examples.disk]))
  = inr [Examples.shirt; Examples.cap; Examples.disk].
Proof.
  apply (@fetchProducts_of_its_result Sample.host
           ["men's clothing"; "Electronics"] "price" Examples.answer).
  reflexivity.
Defined.

(** X5. Under the key "name" the sort is stable as well: the products
    whose titles the collation holds equal to a given title stand in the
    order they had in the catalog. *)
Theorem name_sort_stable `{Host}
    (F : list string) (status : Z) (data : list Product) :
  ∃ result,
    fetchProducts F "name" (Response status (Catalog data)) = inr result
    ∧ ∀ t, filter (λ p, localeCompare (title p) t = 0%Z) result
           = filter (λ p, localeCompare (title p) t = 0%Z)
               (filter (selected F) data).
Proof.
  unfold fetchProducts. rewrite filter_step. simpl.
  eexists. split; [reflexivity|]. intros t.
  apply sort_stable. intros a b Ha Hb. unfold in_order.
  change 0%Q with (inject_Z 0). rewrite <-Zle_Qle.
  apply (localeCompare_trans _ t); [lia|].
  apply localeCompare_flip in Hb. lia.
Qed.

(** X6. Under either key the result is in order throughout, not only
    between neighbours: a product never stands before one that the key
    puts strictly first. *)
Theorem result_in_order_throughout `{Host}
    (F : list string) (K : SortKey) (status : Z) (data : list Product) :
  ∃ result,
    fetchProducts F (key_string K) (Response status (Catalog data))
    = inr result
    ∧ ∀ i j a b,
        i < j → result !! i = Some a → result !! j = Some b → rule K a b.
Proof.
  destruct (fetchProducts_catalog F (key_string K) status data)
    as (result & Hres & _ & Hprice & Hname & _).
  exists result. split; [done|].
  assert (Sorted (rule K) result) as Hs.
  { destruct K; [by apply Hprice | by apply Hname]. }
  pose proof (rule_transitive K) as Htrans.
  apply (Sorted_StronglySorted (rule K)) in Hs.
  intros i j a b. by apply StronglySorted_lookup.
Qed.

(** ** [renderProducts], further *)

(** X7. [renderProducts] only draws: the stores, the history and the
    controls of the page are as they were, and drawing a second time
    changes nothing. *)
Theorem renderProducts_only_draws `{Host} (w : World) :
  renderProducts (renderProducts w) = renderProducts w
  ∧ productsState (renderProducts w) = productsState w
  ∧ visibleProductsState (renderProducts w) = visibleProductsState w
  ∧ filtersState (renderProducts w) = filtersState w
  ∧ isLoading (renderProducts w) = isLoading w
  ∧ history (renderProducts w) = history w
  ∧ controls (renderProducts w) = controls w.
Proof.
  split.
  - destruct w as [ps vs fs [b ls] cp d h]. by destruct b.
  - repeat split.
    + apply off_page_renderProducts, off_page_productsState.
    + apply off_page_renderProducts, off_page_visibleProductsState.
    + apply off_page_renderProducts, off_page_filtersState.
    + apply off_page_renderProducts, off_page_isLoading.
    + apply history_renderProducts.
    + apply document_renderProducts_controls.
Qed.

(** X8. Below 10^21 the price on a card is the sign, the whole part, a
    point and two digits of a number of hundredths that is within half a
    hundredth of the price. *)
Theorem shown_price_is_the_nearest_hundredth `{Host} (x : Q) :
  (Qabs x < inject_Z (10 ^ 21))%Q →
  ∃ n : N,
    JS.toFixed x 2
    = (if Qlt_le_dec x 0%Q then "-" else "")
      +:+ pretty (n `div` 100)%N +:+ "."
      +:+ String (pretty_N_char ((n `div` 10) `mod` 10)%N)
            (String (pretty_N_char (n `mod` 10)%N) "")
    ∧ (Qabs (inject_Z (Z.of_N n) / 100 - Qabs x) <= 1 # 200)%Q.
Proof.
  intros Hx. exists (hundredths x). split; [by apply toFixed_two_decimals|].
  unfold hundredths. change (inject_Z 100) with 100%Q.
  pose proof (Qabs_nonneg x) as Ha.
  set (a := Qabs x) in *. set (y := (a * 100 + (1 # 2))%Q).
  assert (0 <= Qfloor y)%Z as Hz.
  { change 0%Z with (Qfloor 0). apply Qfloor_resp_le. unfold y. lra. }
  rewrite Z2N.id by done.
  pose proof (Qfloor_le y) as Hlo. pose proof (Qlt_floor y) as Hhi.
  rewrite inject_Z_plus in Hhi. change (inject_Z 1) with 1%Q in Hhi.
  apply Qabs_Qle_condition.
  set (q := inject_Z (Qfloor y)) in *. unfold y in Hlo, Hhi.
  unfold Qdiv. change (/ 100)%Q with (1 # 100)%Q.
  clearbody q a. clear Hx Hz. split; lra.
Qed.

Lemma shown_price_is_the_nearest_hundredth_witness :
  ∃ n : N,
    @JS.toFixed Sample.host (price Examples.shirt) 2
    = (if Qlt_le_dec (price Examples.shirt) 0%Q then "-" else "")
      +:+ pretty (n `div` 100)%N +:+ "."
      +:+ String (pretty_N_char ((n `div` 10) `mod` 10)%N)
            (String (pretty_N_char (n `mod` 10)%N) "")
    ∧ (Qabs (inject_Z (Z.of_N n) / 100 - Qabs (price Examples.shirt))
       <= 1 # 200)%Q.
Proof.
  apply (@shown_price_is_the_nearest_hundredth Sample.host
           (price Examples.shirt)).
  reflexivity.
Defined.

(** ** [loadMoreProducts], further *)

Section LoadMore.
Context `{Host}.

Lemma loadMoreProducts_filtersState w :
  filtersState (loadMoreProducts w) = filtersState w.
Proof. unfold loadMoreProducts. destruct (decide _); by stores. Qed.

Lemma prefix_take_length {A} (l1 l2 : list A) :
  l1 `prefix_of` l2 → l1 = take (length l1) l2.
Proof. intros [k ->]. by rewrite take_app_length. Qed.

(** The button after a click: hidden when the window has reached the
    full sequence, else as it was. *)
Lemma loadMoreProducts_button w :
  load_more_display (document (loadMoreProducts w))
  = if decide (length (getState (productsState w))
               ≤ length (getState (visibleProductsState (loadMoreProducts w))))
    then "none" else load_more_display (document w).
Proof.
  unfold loadMoreProducts.
  set (w1 := setState visibleProductsStateR _ w).
  assert (controls w1 = controls w) as Hc by (by apply controls_setState).
  destruct (decide (length (getState (productsState w))
                    ≤ length (getState (visibleProductsState w1)))) as [Hle|Hgt].
  - simpl. by rewrite decide_True.
  - rewrite decide_False by done. unfold controls in Hc. congruence.
Qed.

(** A filter change and a sort change that are fulfilled show the button. *)
Lemma run_button t net w w' :
  t ≠ InitialLoad → run t net w = (w', Fulfilled) →
  load_more_display (document w') = "block".
Proof.
  intros Ht. destruct t; [done| |]; simpl.
  - unfold handleFilterChange.
    destruct (fetchProducts _ _ _); [done|]. by intros [= <-].
  - unfold handleSortChange.
    destruct (fetchProducts _ _ _); [done|]. by intros [= <-].
Qed.
End LoadMore.

(** X9. On a window that is a prefix of the full sequence a click on
    "load more" makes the window the prefix ten longer, cut at the end of
    the sequence; on a window that is complete it changes no store.  The
    full sequence, the filters and the loading flag are never written. *)
Theorem loadMoreProducts_next_page `{Host} (w : World) :
  window_is_prefix w →
  getState (visibleProductsState (loadMoreProducts w))
  = take (length (getState (visibleProductsState w)) + 10)
      (getState (productsState w))
  ∧ (length (getState (productsState w))
     ≤ length (getState (visibleProductsState w)) →
     getState (visibleProductsState (loadMoreProducts w))
     = getState (visibleProductsState w))
  ∧ productsState (loadMoreProducts w) = productsState w
  ∧ filtersState (loadMoreProducts w) = filtersState w
  ∧ isLoading (loadMoreProducts w) = isLoading w.
Proof.
  unfold window_is_prefix. intros Hp.
  pose proof (prefix_length _ _ Hp) as Hlen.
  pose proof (prefix_take_length _ _ Hp) as Hw.
  assert (getState (visibleProductsState (loadMoreProducts w))
          = take (length (getState (visibleProductsState w)) + 10)
              (getState (productsState w))) as Hnext.
  { rewrite loadMoreProducts_visible. rewrite Hw at 1.
    apply take_take_drop. }
  split; [done|]. split.
  - intros Hfull. rewrite Hnext.
    rewrite take_ge by lia. rewrite Hw. by rewrite take_ge by lia.
  - split; [apply loadMoreProducts_productsState|].
    split; [apply loadMoreProducts_filtersState
           |apply loadMoreProducts_isLoading].
Qed.

Lemma loadMoreProducts_next_page_witness :
  getState (visibleProductsState
    (@loadMoreProducts Sample.host Examples.loaded25))
  = take (length (getState (visibleProductsState Examples.loaded25)) + 10)
      (getState (productsState Examples.loaded25))
  ∧ (length (getState (productsState Examples.loaded25))
     ≤ length (getState (visibleProductsState Examples.loaded25)) →
     getState (visibleProductsState
       (@loadMoreProducts Sample.host Examples.loaded25))
     = getState (visibleProductsState Examples.loaded25))
  ∧ productsState (@loadMoreProducts Sample.host Examples.loaded25)
    = productsState Examples.loaded25
  ∧ filtersState (@loadMoreProducts Sample.host Examples.loaded25)
    = filtersState Examples.loaded25
  ∧ isLoading (@loadMoreProducts Sample.host Examples.loaded25)
    = isLoading Examples.loaded25.
Proof.
  apply (@loadMoreProducts_next_page Sample.host Examples.loaded25).
  exists (drop 10 (getState (productsState Examples.loaded25))).
  vm_compute. reflexivity.
Defined.

(** X10. A filter change or a sort change that is fulfilled shows the
    "load more" button, also when the first page already holds every
    product; after [N] clicks the button is hidden exactly when at least
    one click was made and 10 + 10 N products cover the full sequence. *)
Theorem load_more_button `{Host}
    (t : Trigger) (net : Fetched) (w w' : World) (N : nat) :
  t ≠ InitialLoad → run t net w = (w', Fulfilled) →
  load_more_display (document (Nat.iter N loadMoreProducts w'))
  = if decide (1 ≤ N ∧ length (getState (productsState w')) ≤ 10 + 10 * N)
    then "none" else "block".
Proof.
  intros Ht Hrun. pose proof (run_button t net w w' Ht Hrun) as Hblock.
  apply run_fulfilled in Hrun.
  induction N as [|N IH].
  - change (Nat.iter 0 loadMoreProducts w') with w'.
    destruct (decide _) as [[? _]|_]; [lia|done].
  - destruct (loadMoreProducts_iter (S N) w' 10 Hrun) as [Hv _].
    destruct (loadMoreProducts_iter N w' 10 Hrun) as [_ Hp].
    simpl in Hv |- *. rewrite loadMoreProducts_button, Hv, Hp, IH.
    rewrite length_take.
    repeat destruct (decide _); try done; lia.
Qed.

Lemma load_more_button_witness :
  load_more_display (document
    (Nat.iter 2 (@loadMoreProducts Sample.host)
       (@handleSortChange Sample.host
          (Response 200 (Catalog Examples.catalog25)) Examples.loaded25).1))
  = if decide (1 ≤ 2
               ∧ length (getState (productsState
                   (@handleSortChange Sample.host
                      (Response 200 (Catalog Examples.catalog25))
                      Examples.loaded25).1)) ≤ 10 + 10 * 2)
    then "none" else "block".
Proof.
  apply (@load_more_button Sample.host SortChange
           (Response 200 (Catalog Examples.catalog25)) Examples.loaded25).
  - discriminate.
  - vm_compute. reflexivity.
Defined.

(** ** The page after a write *)

Section Sync.
Context `{Host}.

Lemma in_sync_renderProducts w : in_sync (renderProducts w).
Proof.
  destruct w as [ps vs fs [b ls] cp d h]. unfold in_sync.
  by destruct b.
Qed.

Lemma in_sync_notify_all s ls w :
  ls ≠ [] → in_sync (foldl (notify s) w ls).
Proof.
  destruct ls as [|l ls _] using rev_ind; [done|]. intros _.
  rewrite foldl_app. simpl. unfold notify. destruct l; simpl.
  apply in_sync_renderProducts.
Qed.

(** A write of a store that has a listener leaves the page drawn from
    the stores as they are after it. *)
Lemma setState_in_sync {A} (r : StoreRef A) v w :
  listeners (ref_get r w) ≠ [] → in_sync (setState r v w).
Proof. intros Hls. unfold setState. by apply in_sync_notify_all. Qed.

(** What [in_sync] reads. *)
Lemma in_sync_ext w w' :
  getState (visibleProductsState w') = getState (visibleProductsState w) →
  getState (isLoading w') = getState (isLoading w) →
  products_innerHTML (document w') = products_innerHTML (document w) →
  results_count_textContent (document w')
  = results_count_textContent (document w) →
  in_sync w → in_sync w'.
Proof. unfold in_sync. by intros -> -> -> ->. Qed.

(** A write of the full sequence or of the filters does not put the page
    out of step. *)
Lemma setState_productsState_in_sync v w :
  in_sync w → in_sync (setState productsStateR v w).
Proof.
  intros Hw. destruct (listeners (productsState w)) as [|l ls] eqn:Hls.
  - unfold setState. simpl. rewrite Hls. simpl.
    by apply (in_sync_ext w).
  - apply setState_in_sync. simpl. by rewrite Hls.
Qed.

Lemma setState_filtersState_in_sync v w :
  in_sync w → in_sync (setState filtersStateR v w).
Proof.
  intros Hw. destruct (listeners (filtersState w)) as [|l ls] eqn:Hls.
  - unfold setState. simpl. rewrite Hls. simpl.
    by apply (in_sync_ext w).
  - apply setState_in_sync. simpl. by rewrite Hls.
Qed.

Lemma set_load_more_in_sync x w :
  in_sync w → in_sync (with_document (set_load_more x (document w)) w).
Proof. by apply in_sync_ext. Qed.

Lemma set_checkboxes_in_sync boxes w :
  in_sync w → in_sync (with_document (set_checkboxes boxes (document w)) w).
Proof. by apply in_sync_ext. Qed.

Lemma set_dropdown_in_sync v w :
  in_sync w → in_sync (with_document (set_dropdown v (document w)) w).
Proof. by apply in_sync_ext. Qed.

Lemma controls_setState_isLoading b w :
  controls (setState isLoadingR b w) = controls w.
Proof. by apply controls_setState. Qed.

Lemma controls_setState_filtersState v w :
  controls (setState filtersStateR v w) = controls w.
Proof. by apply controls_setState. Qed.

Lemma controls_setState_productsState v w :
  controls (setState productsStateR v w) = controls w.
Proof. by apply controls_setState. Qed.

Lemma controls_setState_visibleProductsState v w :
  controls (setState visibleProductsStateR v w) = controls w.
Proof. by apply controls_setState. Qed.

Lemma controls_inv w w' :
  controls w' = controls w →
  load_more_display (document w') = load_more_display (document w)
  ∧ filter_checkboxes (document w') = filter_checkboxes (document w)
  ∧ sort_dropdown_value (document w') = sort_dropdown_value (document w).
Proof. unfold controls. by intros [= -> -> ->]. Qed.

(** The request a filter change makes, and the world it leaves while it
    waits. *)
Lemma handleFilterChange_request_spec w :
  let F := map value (List.filter checked (filter_checkboxes (document w))) in
  (handleFilterChange_request w).2
  = mkRequest F (sort_dropdown_value (document w))
  ∧ getState (filtersState (handleFilterChange_request w).1) = F
  ∧ getState (isLoading (handleFilterChange_request w).1) = true
  ∧ productsState (handleFilterChange_request w).1 = productsState w
  ∧ visibleProductsState (handleFilterChange_request w).1
    = visibleProductsState w
  ∧ listeners (filtersState (handleFilterChange_request w).1)
    = listeners (filtersState w)
  ∧ listeners (isLoading (handleFilterChange_request w).1)
    = listeners (isLoading w)
  ∧ controls (handleFilterChange_request w).1 = controls w.
Proof.
  unfold handleFilterChange_request. cbn [fst snd].
  set (w1 := setState isLoadingR true w).
  destruct (controls_inv w w1 (controls_setState_isLoading true w))
    as (_ & Hboxes & _).
  rewrite Hboxes.
  set (F := map value _).
  set (w2 := setState filtersStateR F w1).
  destruct (controls_inv w1 w2 (controls_setState_filtersState F w1))
    as (_ & _ & Hdrop).
  destruct (controls_inv w w1 (controls_setState_isLoading true w))
    as (_ & _ & Hdrop1).
  rewrite Hdrop, Hdrop1. unfold w2, w1.
  split_and!; try (by stores).
  by rewrite controls_setState_filtersState, controls_setState_isLoading.
Qed.

(** The two cuts put together are the handlers. *)
Lemma handleFilterChange_cut net w :
  handleFilterChange net w
  = let wq := handleFilterChange_request w in
    match fetchProducts (request_filters wq.2) (request_sortKey wq.2) net with
    | inl e => (wq.1, Rejected e)
    | inr updatedProducts =>
        (handleFilterChange_resume updatedProducts wq.1, Fulfilled)
    end.
Proof. reflexivity. Qed.

Lemma handleSortChange_cut net w :
  handleSortChange net w
  = let q := handleSortChange_request w in
    match fetchProducts (request_filters q) (request_sortKey q) net with
    | inl e => (w, Rejected e)
    | inr updatedProducts =>
        (handleSortChange_resume updatedProducts w, Fulfilled)
    end.
Proof. reflexivity. Qed.

(** What the rest of a filter change and of a sort change leave. *)
Lemma handleFilterChange_resume_spec ps w :
  let w' := handleFilterChange_resume ps w in
  getState (productsState w') = ps
  ∧ getState (visibleProductsState w') = take 10 ps
  ∧ getState (isLoading w') = false
  ∧ filtersState w' = filtersState w
  ∧ listeners (productsState w') = listeners (productsState w)
  ∧ listeners (visibleProductsState w') = listeners (visibleProductsState w)
  ∧ listeners (isLoading w') = listeners (isLoading w)
  ∧ controls w'
    = ("block", filter_checkboxes (document w), sort_dropdown_value (document w))
  ∧ (listeners (visibleProductsState w) ≠ [] → in_sync w').
Proof.
  unfold handleFilterChange_resume. cbn zeta.
  set (w1 := setState productsStateR ps w).
  set (w2 := setState isLoadingR false w1).
  set (w3 := setState visibleProductsStateR (JS.slice ps 0 10) w2).
  assert (controls w3 = controls w) as Hc.
  { unfold w3, w2, w1.
    by rewrite controls_setState_visibleProductsState,
      controls_setState_isLoading, controls_setState_productsState. }
  destruct (controls_inv _ _ Hc) as (_ & Hb & Hd).
  split_and!; try (unfold w3, w2, w1; stores; by rewrite ?slice_first_page).
  - unfold controls. simpl. by rewrite Hb, Hd.
  - intros Hls. apply set_load_more_in_sync, setState_in_sync.
    unfold w2, w1. by stores.
Qed.

Lemma handleSortChange_resume_spec ps w :
  let w' := handleSortChange_resume ps w in
  getState (productsState w') = ps
  ∧ getState (visibleProductsState w') = take 10 ps
  ∧ isLoading w' = isLoading w
  ∧ filtersState w' = filtersState w
  ∧ listeners (productsState w') = listeners (productsState w)
  ∧ listeners (visibleProductsState w') = listeners (visibleProductsState w)
  ∧ controls w'
    = ("block", filter_checkboxes (document w), sort_dropdown_value (document w))
  ∧ (listeners (visibleProductsState w) ≠ [] → in_sync w').
Proof.
  unfold handleSortChange_resume. cbn zeta.
  set (w1 := setState productsStateR ps w).
  set (w2 := setState visibleProductsStateR (JS.slice ps 0 10) w1).
  assert (controls w2 = controls w) as Hc.
  { unfold w2, w1.
    by rewrite controls_setState_visibleProductsState,
      controls_setState_productsState. }
  destruct (controls_inv _ _ Hc) as (_ & Hb & Hd).
  split_and!; try (unfold w2, w1; stores; by rewrite ?slice_first_page).
  - unfold controls. simpl. by rewrite Hb, Hd.
  - intros Hls. apply set_load_more_in_sync, setState_in_sync.
    unfold w1. by stores.
Qed.
End Sync.

(** ** The sequences, end to end *)

Section Outcomes.
Context `{Host}.

(** [init] on any world, when the catalog arrives. *)
Lemma init_fulfilled_spec status data w :
  let w' := (init (Response status (Catalog data)) w).1 in
  ∃ result,
    fetchProducts [] "price" (Response status (Catalog data)) = inr result
    ∧ getState (productsState w') = result
    ∧ getState (visibleProductsState w') = take 10 result
    ∧ getState (isLoading w') = false
    ∧ filtersState w' = filtersState w
    ∧ controls w' = controls w
    ∧ in_sync w'.
Proof.
  destruct (fetchProducts_catalog [] "price" status data)
    as (result & Hres & _).
  exists result. split; [done|].
  unfold init. rewrite Hres. cbn [fst].
  set (w0 := subscribe isLoadingR RenderProducts
               (subscribe visibleProductsStateR RenderProducts w)).
  assert (filtersState w0 = filtersState w) as Hf by done.
  assert (controls w0 = controls w) as Hc by done.
  assert (listeners (isLoading w0) ≠ []) as Hl.
  { simpl. by destruct (listeners (isLoading w)). }
  clearbody w0.
  split_and!; try (stores; by rewrite ?slice_first_page).
  - by rewrite controls_setState_isLoading,
      controls_setState_visibleProductsState,
      controls_setState_productsState, controls_setState_isLoading.
  - apply setState_in_sync. by stores.
Qed.

(** [init] on any world, when the retrieval fails. *)
Lemma init_rejected_spec net w :
  retrieval_fails net →
  let w' := (init net w).1 in
  getState (isLoading w') = true
  ∧ getState (visibleProductsState w') = getState (visibleProductsState w)
  ∧ getState (productsState w') = getState (productsState w)
  ∧ controls w' = controls w
  ∧ in_sync w'.
Proof.
  intros [e He]%retrieval_fails_inl. unfold init. rewrite He. cbn [fst].
  set (w0 := subscribe isLoadingR RenderProducts
               (subscribe visibleProductsStateR RenderProducts w)).
  assert (getState (visibleProductsState w0)
          = getState (visibleProductsState w)) as Hv by done.
  assert (getState (productsState w0) = getState (productsState w))
    as Hp by done.
  assert (controls w0 = controls w) as Hc by done.
  assert (listeners (isLoading w0) ≠ []) as Hl.
  { simpl. by destruct (listeners (isLoading w)). }
  clearbody w0.
  split_and!; try (by stores).
  - by rewrite controls_setState_isLoading.
  - by apply setState_in_sync.
Qed.
End Outcomes.

(** X11. A filter change that is fulfilled leaves in the filter store
    the values of the ticked boxes, in the order of the page, in the full
    sequence what [fetchProducts] makes of the catalog with these filters
    and the key of the selector, in the window its first ten, the flag
    false and the button shown; the boxes and the selector are not
    written, and the page is drawn from these stores when the window has
    a listener. *)
Theorem filter_change_outcome `{Host}
    (w : World) (status : Z) (data : list Product) :
  let F := map value (List.filter checked (filter_checkboxes (document w))) in
  let K := sort_dropdown_value (document w) in
  let w' := (handleFilterChange (Response status (Catalog data)) w).1 in
  ∃ result,
    fetchProducts F K (Response status (Catalog data)) = inr result
    ∧ getState (filtersState w') = F
    ∧ getState (productsState w') = result
    ∧ getState (visibleProductsState w') = take 10 result
    ∧ getState (isLoading w') = false
    ∧ controls w' = ("block", filter_checkboxes (document w), K)
    ∧ (listeners (visibleProductsState w) ≠ [] → in_sync w').
Proof.
  cbn zeta. rewrite handleFilterChange_cut. cbn zeta.
  destruct (handleFilterChange_request_spec w)
    as (Hq & HF & _ & _ & Hvs & _ & _ & Hc).
  cbn zeta in Hq, HF. rewrite Hq. cbn [request_filters request_sortKey].
  destruct (fetchProducts_catalog
              (map value (List.filter checked (filter_checkboxes (document w))))
              (sort_dropdown_value (document w)) status data)
    as (result & Hres & _).
  exists result. split; [done|]. rewrite Hres. cbn [fst].
  destruct (handleFilterChange_resume_spec result
              (handleFilterChange_request w).1)
    as (Hp & Hv & Hl & Hf & _ & _ & _ & Hc' & Hsync).
  destruct (controls_inv _ _ Hc) as (_ & Hb & Hd).
  split_and!; try done.
  - by rewrite Hf.
  - by rewrite Hc', Hb, Hd.
  - intros Hls. apply Hsync. by rewrite Hvs.
Qed.

(** X12. A sort change that is fulfilled filters by the filter store as
    the last filter change left it, not by the boxes as they are on the
    page, and sorts by the key of the selector; it leaves the first ten
    in the window, the filter store and the loading flag as they were
    and the button shown. *)
Theorem sort_change_outcome `{Host}
    (w : World) (status : Z) (data : list Product) :
  let K := sort_dropdown_value (document w) in
  let net := Response status (Catalog data) in
  let w' := (handleSortChange net w).1 in
  ∃ result,
    fetchProducts (getState (filtersState w)) K net = inr result
    ∧ getState (productsState w') = result
    ∧ getState (visibleProductsState w') = take 10 result
    ∧ filtersState w' = filtersState w
    ∧ isLoading w' = isLoading w
    ∧ controls w' = ("block", filter_checkboxes (document w), K)
    ∧ (listeners (visibleProductsState w) ≠ [] → in_sync w')
    ∧ ∀ boxes,
        getState (productsState
          (handleSortChange net
             (with_document (set_checkboxes boxes (document w)) w)).1)
        = result.
Proof.
  cbn zeta.
  destruct (fetchProducts_catalog (getState (filtersState w))
              (sort_dropdown_value (document w)) status data)
    as (result & Hres & _).
  exists result. split; [done|].
  assert (∀ w0, getState (filtersState w0) = getState (filtersState w) →
                sort_dropdown_value (document w0)
                = sort_dropdown_value (document w) →
                (handleSortChange (Response status (Catalog data)) w0).1
                = handleSortChange_resume result w0) as Hrun.
  { intros w0 HF HK. rewrite handleSortChange_cut. cbn zeta.
    unfold handleSortChange_request.
    cbn [request_filters request_sortKey]. by rewrite HF, HK, Hres. }
  rewrite (Hrun w) by done.
  destruct (handleSortChange_resume_spec result w)
    as (Hp & Hv & Hl & Hf & _ & _ & Hc & Hsync).
  split_and!; try done.
  intros boxes. rewrite Hrun by done.
  by destruct (handleSortChange_resume_spec result
                 (with_document (set_checkboxes boxes (document w)) w))
    as (-> & _).
Qed.

(** X13. The initial load asks for the whole catalog by price, whatever
    the boxes and the selector of the page show: it leaves that sequence
    in the full sequence, its first ten in the window, the flag false and
    the filter store empty, registers the renderer once on the window and
    once on the flag, draws the page from these stores, and does not
    write the boxes, the selector or the button. *)
Theorem init_outcome `{Host} (d : Document) (status : Z) (data : list Product) :
  let w' := (init (Response status (Catalog data)) (initial_world d)).1 in
  ∃ result,
    fetchProducts [] "price" (Response status (Catalog data)) = inr result
    ∧ getState (productsState w') = result
    ∧ getState (visibleProductsState w') = take 10 result
    ∧ getState (isLoading w') = false
    ∧ getState (filtersState w') = []
    ∧ registered_once w'
    ∧ in_sync w'
    ∧ controls w'
      = (load_more_display d, filter_checkboxes d, sort_dropdown_value d).
Proof.
  cbn zeta.
  destruct (init_fulfilled_spec status data (initial_world d))
    as (result & Hres & Hp & Hv & Hl & Hf & Hc & Hsync).
  exists result.
  split_and!; [exact Hres|exact Hp|exact Hv|exact Hl| | |exact Hsync|exact Hc].
  - by rewrite Hf.
  - unfold registered_once.
    by destruct (init_listeners (Response status (Catalog data))
                   (initial_world d)) as (-> & -> & -> & ->).
Qed.

(** X14. When the retrieval of the initial load fails the page is left
    on the loading text with a counter of zero, the flag true and the
    stores empty. *)
Theorem init_failure_leaves_loading `{Host} (d : Document) (net : Fetched) :
  retrieval_fails net →
  let w' := (init net (initial_world d)).1 in
  products_innerHTML (document w') = "Loading..."
  ∧ results_count_textContent (document w') = "0 Results"
  ∧ getState (isLoading w') = true
  ∧ getState (productsState w') = []
  ∧ getState (visibleProductsState w') = []
  ∧ controls w'
    = (load_more_display d, filter_checkboxes d, sort_dropdown_value d).
Proof.
  intros Hnet. cbn zeta.
  destruct (init_rejected_spec net (initial_world d) Hnet)
    as (Hl & Hv & Hp & Hc & Hhtml & Hcount).
  rewrite Hl in Hhtml. rewrite Hv in Hcount.
  split_and!; done.
Qed.

Lemma init_failure_leaves_loading_witness :
  products_innerHTML (document
    (@init Sample.host NetworkFailure (initial_world Examples.page)).1)
  = "Loading..."
  ∧ results_count_textContent (document
      (@init Sample.host NetworkFailure (initial_world Examples.page)).1)
    = "0 Results"
  ∧ getState (isLoading
      (@init Sample.host NetworkFailure (initial_world Examples.page)).1)
    = true
  ∧ getState (productsState
      (@init Sample.host NetworkFailure (initial_world Examples.page)).1)
    = []
  ∧ getState (visibleProductsState
      (@init Sample.host NetworkFailure (initial_world Examples.page)).1)
    = []
  ∧ controls
      (@init Sample.host NetworkFailure (initial_world Examples.page)).1
    = (load_more_display Examples.page, filter_checkboxes Examples.page,
       sort_dropdown_value Examples.page).
Proof.
  apply (@init_failure_leaves_loading Sample.host Examples.page
           NetworkFailure).
  by left.
Defined.

(** X15. A filter change whose retrieval fails has already written the
    ticked boxes to the filter store and raised the flag: the next sort
    change that is fulfilled filters by these boxes, and the page stays
    on the loading text over the new window. *)
Theorem failed_filter_change_shows_at_next_sort `{Host}
    (w : World) (net1 : Fetched) (status : Z) (data : list Product) :
  retrieval_fails net1 →
  listeners (visibleProductsState w) ≠ [] →
  let F := map value (List.filter checked (filter_checkboxes (document w))) in
  let K := sort_dropdown_value (document w) in
  let w1 := (handleFilterChange net1 w).1 in
  let w2 := (handleSortChange (Response status (Catalog data)) w1).1 in
  ∃ result,
    fetchProducts F K (Response status (Catalog data)) = inr result
    ∧ getState (productsState w2) = result
    ∧ getState (visibleProductsState w2) = take 10 result
    ∧ getState (isLoading w2) = true
    ∧ products_innerHTML (document w2) = "Loading...".
Proof.
  intros [e He]%retrieval_fails_inl Hls. cbn zeta.
  rewrite handleFilterChange_cut. cbn zeta. rewrite He. cbn [fst].
  destruct (handleFilterChange_request_spec w)
    as (_ & HF & Hl & _ & Hvs & _ & _ & Hc).
  cbn zeta in HF. set (w1 := (handleFilterChange_request w).1) in *.
  destruct (controls_inv _ _ Hc) as (_ & _ & Hd).
  destruct (fetchProducts_catalog
              (map value (List.filter checked (filter_checkboxes (document w))))
              (sort_dropdown_value (document w)) status data)
    as (result & Hres & _).
  exists result. split; [done|].
  rewrite handleSortChange_cut. cbn zeta. unfold handleSortChange_request.
  cbn [request_filters request_sortKey]. rewrite HF, Hd, Hres. cbn [fst].
  destruct (handleSortChange_resume_spec result w1)
    as (Hp & Hv & Hl' & _ & _ & _ & _ & Hsync).
  split_and!; [exact Hp|exact Hv|by rewrite Hl'|].
  destruct Hsync as [Hhtml _]; [by rewrite Hvs|].
  by rewrite Hhtml, Hl', Hl.
Qed.

Lemma failed_filter_change_shows_at_next_sort_witness :
  ∃ result,
    @fetchProducts Sample.host ["Jewelery"] "price" Examples.answer
    = inr result
    ∧ getState (productsState
        (@handleSortChange Sample.host Examples.answer
           (@handleFilterChange Sample.host NetworkFailure
              (with_document
                 (Examples.tick_jewelery (document Examples.loaded))
                 Examples.loaded)).1).1) = result
    ∧ getState (visibleProductsState
        (@handleSortChange Sample.host Examples.answer
           (@handleFilterChange Sample.host NetworkFailure
              (with_document
                 (Examples.tick_jewelery (document Examples.loaded))
                 Examples.loaded)).1).1) = take 10 result
    ∧ getState (isLoading
        (@handleSortChange Sample.host Examples.answer
           (@handleFilterChange Sample.host NetworkFailure
              (with_document
                 (Examples.tick_jewelery (document Examples.loaded))
                 Examples.loaded)).1).1) = true
    ∧ products_innerHTML (document
        (@handleSortChange Sample.host Examples.answer
           (@handleFilterChange Sample.host NetworkFailure
              (with_document
                 (Examples.tick_jewelery (document Examples.loaded))
                 Examples.loaded)).1).1) = "Loading...".
Proof.
  apply (@failed_filter_change_shows_at_next_sort Sample.host
           (with_document (Examples.tick_jewelery (document Examples.loaded))
              Examples.loaded)
           NetworkFailure 200 Examples.catalog).
  - by left.
  - vm_compute. discriminate.
Defined.

(** ** How often the page is drawn *)

Section Redraws.
Context `{Host}.

Lemma renders_app evs1 evs2 :
  renders (evs1 ++ evs2) = renders evs1 + renders evs2.
Proof. unfold renders. by rewrite List.filter_app, length_app. Qed.

Lemma renders_notified s (ps vs : list Product) b ls :
  renders (map (λ l, Notified s l ps vs b) ls) = length ls.
Proof.
  unfold renders. induction ls as [|l ls IH]; simpl; [done|]. by rewrite IH.
Qed.

(** A write of a store draws once for each listener of the store. *)
Lemma renders_setState {A} (r : StoreRef A) `{!Lawful r} v w :
  ∃ evs, history (setState r v w) = history w ++ evs
         ∧ renders evs = length (listeners (ref_get r w)).
Proof.
  eexists. split; [by apply history_setState|].
  change (renders (Written ?s :: ?evs)) with (renders evs).
  apply renders_notified.
Qed.
End Redraws.

(** X16. With the renderer registered as [init] leaves it, the page is
    drawn three times by a filter change that is fulfilled and once by
    one that is rejected, once by a sort change that is fulfilled and not
    at all by one that is rejected, and once by a click on "load more". *)
Theorem redraws_per_sequence `{Host} (net : Fetched) (w : World) :
  registered_once w →
  renders (new_events w (handleFilterChange net w).1)
  = match net with Response _ (Catalog _) => 3 | _ => 1 end
  ∧ renders (new_events w (handleSortChange net w).1)
    = match net with Response _ (Catalog _) => 1 | _ => 0 end
  ∧ renders (new_events w (loadMoreProducts w)) = 1.
Proof.
  intros (Hv & Hl & Hp & Hf). split_and!.
  - unfold handleFilterChange.
    set (w1 := setState isLoadingR true w).
    set (w2 := setState filtersStateR _ w1).
    destruct (renders_setState isLoadingR true w) as (e1 & H1 & R1).
    destruct (renders_setState filtersStateR
                (map value (List.filter checked
                   (filter_checkboxes (document w1)))) w1)
      as (e2 & H2 & R2).
    fold w1 in H1. fold w2 in H2.
    assert (renders (new_events w w2) = 1) as Hw2.
    { erewrite new_events_app; [|by rewrite H2, H1, <-app_assoc].
      rewrite renders_app, R1, R2. unfold w1. stores. by rewrite Hl, Hf. }
    destruct (fetchProducts _ _ net) as [e|ps] eqn:Hfetch.
    + cbn [fst]. rewrite Hw2.
      destruct net as [|? [|?]]; [done..|]. simpl in Hfetch. done.
    + cbn [fst].
      destruct (fetchProducts_inr _ _ _ _ Hfetch) as (? & ? & ->).
      set (w3 := setState productsStateR ps w2).
      set (w4 := setState isLoadingR false w3).
      set (w5 := setState visibleProductsStateR _ w4).
      destruct (renders_setState productsStateR ps w2) as (e3 & H3 & R3).
      destruct (renders_setState isLoadingR false w3) as (e4 & H4 & R4).
      destruct (renders_setState visibleProductsStateR
                  (JS.slice ps 0 10) w4) as (e5 & H5 & R5).
      fold w3 in H3. fold w4 in H4. fold w5 in H5.
      erewrite new_events_app.
      2: { cbn [history with_document].
           by rewrite H5, H4, H3, H2, H1, <-!app_assoc. }
      rewrite !renders_app, R1, R2, R3, R4, R5.
      unfold w4, w3, w2, w1. stores. by rewrite Hl, Hf, Hp, Hv.
  - unfold handleSortChange.
    destruct (fetchProducts _ _ net) as [e|ps] eqn:Hfetch.
    + cbn [fst]. unfold new_events. rewrite drop_all.
      destruct net as [|? [|?]]; [done..|]. simpl in Hfetch. done.
    + cbn [fst].
      destruct (fetchProducts_inr _ _ _ _ Hfetch) as (? & ? & ->).
      set (w1 := setState productsStateR ps w).
      destruct (renders_setState productsStateR ps w) as (e1 & H1 & R1).
      destruct (renders_setState visibleProductsStateR
                  (JS.slice ps 0 10) w1) as (e2 & H2 & R2).
      fold w1 in H1.
      erewrite new_events_app.
      2: { cbn [history with_document]. by rewrite H2, H1, <-!app_assoc. }
      rewrite !renders_app, R1, R2. unfold w1. stores. by rewrite Hp, Hv.
  - unfold loadMoreProducts.
    set (v := (_ ++ _)%list).
    destruct (renders_setState visibleProductsStateR v w) as (e1 & H1 & R1).
    erewrite new_events_app.
    2: { destruct (decide _); cbn [history with_document]; exact H1. }
    rewrite R1. simpl. by rewrite Hv.
Qed.

Lemma redraws_per_sequence_witness :
  renders (new_events Examples.loaded
    (@handleFilterChange Sample.host Examples.answer Examples.loaded).1)
  = 3
  ∧ renders (new_events Examples.loaded
      (@handleSortChange Sample.host Examples.answer Examples.loaded).1)
    = 1
  ∧ renders (new_events Examples.loaded
      (@loadMoreProducts Sample.host Examples.loaded)) = 1.
Proof.
  apply (@redraws_per_sequence Sample.host Examples.answer Examples.loaded).
  by vm_compute.
Defined.

(** ** The event loop *)

Section Loop.
Context `{Host}.

Lemma loadMoreProducts_listeners w :
  listeners (visibleProductsState (loadMoreProducts w))
  = listeners (visibleProductsState w).
Proof. unfold loadMoreProducts. destruct (decide _); by stores. Qed.

Lemma loadMoreProducts_in_sync w :
  listeners (visibleProductsState w) ≠ [] → in_sync (loadMoreProducts w).
Proof.
  intros Hls. unfold loadMoreProducts.
  destruct (decide _); [apply set_load_more_in_sync|];
    by apply setState_in_sync.
Qed.

Lemma handleFilterChange_request_in_sync w :
  listeners (isLoading w) ≠ [] → in_sync (handleFilterChange_request w).1.
Proof.
  intros Hls. unfold handleFilterChange_request. cbn [fst].
  by apply setState_filtersState_in_sync, setState_in_sync.
Qed.

Lemma settled_page_started d status data :
  settled_page (world (started d status data)).
Proof.
  unfold started. cbn [world].
  destruct (init_fulfilled_spec status data (initial_world d))
    as (result & _ & Hp & Hv & _ & _ & _ & Hsync).
  split_and!; [|exists 1; split; [lia|by rewrite Hv, Hp]|exact Hsync].
  unfold registered_once.
  by destruct (init_listeners (Response status (Catalog data))
                 (initial_world d)) as (-> & -> & -> & ->).
Qed.

Lemma settled_page_request w :
  settled_page w → settled_page (handleFilterChange_request w).1.
Proof.
  intros ((Hv & Hl & Hp & Hf) & (k & Hk & Hpaged) & Hsync).
  destruct (handleFilterChange_request_spec w)
    as (_ & _ & _ & Hps & Hvs & Hlf & Hll & _).
  split_and!.
  - unfold registered_once. by rewrite Hvs, Hps, Hlf, Hll.
  - exists k. by rewrite Hvs, Hps.
  - apply handleFilterChange_request_in_sync. by rewrite Hl.
Qed.

Lemma settled_page_settle p net w :
  settled_page w → settled_page (settle p net w).
Proof.
  intros Hw. pose proof Hw as ((Hv & Hl & Hp & Hf) & _ & _).
  destruct p as [q|q]; simpl;
    (destruct (fetchProducts _ _ net) as [e|ps]; [done|]).
  - destruct (handleFilterChange_resume_spec ps w)
      as (Hps & Hvs & _ & Hfs & Hlp & Hlv & Hll & _ & Hsync).
    split_and!.
    + unfold registered_once. by rewrite Hlv, Hll, Hlp, Hfs.
    + exists 1. split; [lia|]. by rewrite Hvs, Hps.
    + apply Hsync. by rewrite Hv.
  - destruct (handleSortChange_resume_spec ps w)
      as (Hps & Hvs & Hls & Hfs & Hlp & Hlv & _ & Hsync).
    split_and!.
    + unfold registered_once. by rewrite Hlv, Hls, Hlp, Hfs.
    + exists 1. split; [lia|]. by rewrite Hvs, Hps.
    + apply Hsync. by rewrite Hv.
Qed.

Lemma settled_page_loadMoreProducts w :
  settled_page w → settled_page (loadMoreProducts w).
Proof.
  intros ((Hv & Hl & Hp & Hf) & (k & Hk & Hpaged) & Hsync).
  split_and!.
  - unfold registered_once.
    by rewrite loadMoreProducts_listeners, loadMoreProducts_productsState,
      loadMoreProducts_filtersState, loadMoreProducts_isLoading.
  - exists (S k). split; [lia|].
    rewrite loadMoreProducts_visible, loadMoreProducts_productsState, Hpaged.
    rewrite take_next_page. f_equal. lia.
  - apply loadMoreProducts_in_sync. by rewrite Hv.
Qed.

Lemma settled_page_step s a :
  settled_page (world s) → settled_page (world (step s a)).
Proof.
  intros Hs. destruct a as [boxes|v| |i net]; simpl.
  - apply settled_page_request.
    destruct Hs as (Hr & Hp & Hsync).
    split_and!; [done|done|by apply set_checkboxes_in_sync].
  - destruct Hs as (Hr & Hp & Hsync).
    split_and!; [done|done|by apply set_dropdown_in_sync].
  - by apply settled_page_loadMoreProducts.
  - destruct (pending s !! i); [|done]. by apply settled_page_settle.
Qed.

Lemma settled_page_exec acts s :
  settled_page (world s) → settled_page (world (exec acts s)).
Proof.
  revert s. induction acts as [|a acts IH]; intros s Hs; [done|].
  apply IH. by apply settled_page_step.
Qed.

Lemma paged_prefix w : paged w → window_is_prefix w.
Proof. intros (k & _ & Hk). unfold window_is_prefix. rewrite Hk. apply prefix_take. Qed.
End Loop.

(** X17. However the user's actions and the answers of the endpoint
    follow each other once the initial load is done, the renderer stays
    registered once on the window and once on the loading flag, and the
    two other stores have no listener. *)
Theorem renderer_registered_once_throughout `{Host}
    (d : Document) (status : Z) (data : list Product) (acts : list Action) :
  registered_once (world (exec acts (started d status data))).
Proof. apply settled_page_exec, settled_page_started. Qed.

(** X18. Between any two steps of the event loop the window is a whole
    number of pages of the full sequence, counted from its start and cut
    at its end: a prefix of it, and never longer. *)
Theorem window_is_pages_throughout `{Host}
    (d : Document) (status : Z) (data : list Product) (acts : list Action) :
  let w := world (exec acts (started d status data)) in
  paged w
  ∧ window_is_prefix w
  ∧ length (getState (visibleProductsState w))
    ≤ length (getState (productsState w)).
Proof.
  cbn zeta.
  destruct (settled_page_exec acts (started d status data)
              (settled_page_started d status data)) as (_ & Hp & _).
  split; [done|]. pose proof (paged_prefix _ Hp) as Hpre.
  split; [done|]. by apply prefix_length.
Qed.

(** X19. Between any two steps of the event loop the page shows what the
    stores hold: the loading text when the flag is true, else the cards
    of the window, and the length of the window in the counter. *)
Theorem page_in_sync_throughout `{Host}
    (d : Document) (status : Z) (data : list Product) (acts : list Action) :
  in_sync (world (exec acts (started d status data))).
Proof. apply settled_page_exec, settled_page_started. Qed.

(** X20. The answers are taken as they come.  When a sort change is
    started, then a filter change, and the answer to the filter change
    comes first, the answer to the sort change is the last to write the
    full sequence: it holds the catalog filtered by the filters of before
    the filter change, while the filter store holds the new ones. *)
Theorem last_answer_wins `{Host}
    (w : World) (v : string) (boxes : list Checkbox) (net1 : Fetched)
    (status : Z) (data : list Product) :
  let s := exec [ChangeSort v; ChangeFilter boxes; Answer 1 net1;
                 Answer 0 (Response status (Catalog data))]
             (mkSystem w []) in
  ∃ result,
    fetchProducts (getState (filtersState w)) v
      (Response status (Catalog data)) = inr result
    ∧ getState (productsState (world s)) = result
    ∧ getState (visibleProductsState (world s)) = take 10 result
    ∧ getState (filtersState (world s)) = map value (List.filter checked boxes)
    ∧ pending s = [].
Proof.
  cbn zeta.
  destruct (fetchProducts_catalog (getState (filtersState w)) v status data)
    as (result & Hres & _).
  exists result. split; [done|].
  unfold exec. cbn [foldl step world pending app lookup list_lookup delete
                    list_delete fst snd].
  set (w0 := with_document (set_dropdown v (document w)) w).
  set (w1 := with_document (set_checkboxes boxes (document w0)) w0).
  destruct (handleFilterChange_request_spec w1)
    as (_ & HF & _ & _ & _ & _ & _ & _).
  cbn zeta in HF.
  set (w2 := (handleFilterChange_request w1).1) in *.
  set (w3 := settle (AwaitFilter _) net1 w2).
  assert (filtersState w3 = filtersState w2) as Hf3.
  { unfold w3. simpl. destruct (fetchProducts _ _ net1) as [e|ps]; [done|].
    by destruct (handleFilterChange_resume_spec ps w2)
      as (_ & _ & _ & -> & _). }
  assert (settle (AwaitSort (handleSortChange_request w0))
            (Response status (Catalog data)) w3
          = handleSortChange_resume result w3) as ->.
  { change (settle _ _ w3)
      with (match fetchProducts (getState (filtersState w)) v
                    (Response status (Catalog data)) with
            | inl _ => w3
            | inr ps => handleSortChange_resume ps w3
            end).
    by rewrite Hres. }
  destruct (handleSortChange_resume_spec result w3)
    as (Hp & Hv & _ & Hf & _).
  split_and!; [exact Hp|exact Hv| |done].
  rewrite Hf, Hf3. exact HF.
Qed.

(** ** The loading text *)

Section Stuck.
Context `{Host}.

Lemma settle_sort_isLoading q net w :
  isLoading (settle (AwaitSort q) net w) = isLoading w.
Proof.
  simpl. destruct (fetchProducts _ _ net) as [e|ps]; [done|].
  by destruct (handleSortChange_resume_spec ps w) as (_ & _ & -> & _).
Qed.

(** With the flag true and no filter change waiting, a step that starts
    no filter change leaves both so. *)
Lemma stuck_step s a :
  getState (isLoading (world s)) = true →
  Forall (λ p, is_filter_request p = false) (pending s) →
  is_filter_action a = false →
  getState (isLoading (world (step s a))) = true
  ∧ Forall (λ p, is_filter_request p = false) (pending (step s a)).
Proof.
  intros Hl Hp Ha. destruct a as [boxes|v| |i net]; [done| | |]; simpl.
  - split; [done|]. apply Forall_app. split; [done|]. by constructor.
  - split; [|done]. by rewrite loadMoreProducts_isLoading.
  - destruct (pending s !! i) as [p|] eqn:Hi; [|done]. simpl.
    split; [|by apply Forall_delete].
    rewrite Forall_forall in Hp.
    pose proof (Hp p (list_elem_of_lookup_2 _ _ _ Hi)) as Hsort.
    destruct p as [q|q]; [done|]. by rewrite settle_sort_isLoading.
Qed.

Lemma stuck_exec acts s :
  getState (isLoading (world s)) = true →
  Forall (λ p, is_filter_request p = false) (pending s) →
  Forall (λ a, is_filter_action a = false) acts →
  getState (isLoading (world (exec acts s))) = true.
Proof.
  revert s. induction acts as [|a acts IH]; intros s Hl Hp Hacts; [done|].
  apply Forall_cons in Hacts as [Ha Hacts].
  destruct (stuck_step s a Hl Hp Ha) as [Hl' Hp'].
  by apply IH.
Qed.
End Stuck.

(** X21. Once the flag is true with no filter change waiting for its
    answer (a filter change was rejected), nothing but a new filter
    change clears it: through any sort changes, answers and clicks on
    "load more" the flag stays true and the page stays on the loading
    text. *)
Theorem loading_text_stays_until_a_filter_change `{Host}
    (d : Document) (status : Z) (data : list Product)
    (acts acts' : list Action) :
  let s := exec acts (started d status data) in
  getState (isLoading (world s)) = true →
  Forall (λ p, is_filter_request p = false) (pending s) →
  Forall (λ a, is_filter_action a = false) acts' →
  getState (isLoading (world (exec acts' s))) = true
  ∧ products_innerHTML (document (world (exec acts' s))) = "Loading...".
Proof.
  cbn zeta. intros Hl Hp Hacts.
  pose proof (stuck_exec acts' _ Hl Hp Hacts) as Hl'.
  split; [done|].
  destruct (settled_page_exec acts' _
              (settled_page_exec acts _ (settled_page_started d status data)))
    as (_ & _ & Hhtml & _).
  by rewrite Hhtml, Hl'.
Qed.

Lemma loading_text_stays_until_a_filter_change_witness :
  getState (isLoading (world
    (@exec Sample.host
       [ChangeSort "name"; Answer 0 Examples.answer; ClickLoadMore]
       (@exec Sample.host
          [ChangeFilter [mkCheckbox true "electronics"];
           Answer 0 NetworkFailure]
          (@started Sample.host Examples.page 200 Examples.catalog)))))
  = true
  ∧ products_innerHTML (document (world
      (@exec Sample.host
         [ChangeSort "name"; Answer 0 Examples.answer; ClickLoadMore]
         (@exec Sample.host
            [ChangeFilter [mkCheckbox true "electronics"];
             Answer 0 NetworkFailure]
            (@started Sample.host Examples.page 200 Examples.catalog)))))
    = "Loading...".
Proof.
  apply (@loading_text_stays_until_a_filter_change Sample.host
           Examples.page 200 Examples.catalog
           [ChangeFilter [mkCheckbox true "electronics"];
            Answer 0 NetworkFailure]
           [ChangeSort "name"; Answer 0 Examples.answer; ClickLoadMore]).
  - vm_compute. reflexivity.
  - vm_compute. constructor.
  - repeat constructor.
Defined.

(** ** The filter panel *)

(** X22. The click on the menu icon leaves "open" among the classes of
    the panel and the click on the close button leaves it out; either
    click made twice does what it does once, and no other class is added
    or removed by them. *)
Theorem filters_panel_clicks (classList : list string) :
  ("open" ∈ open_filters classList)
  ∧ ("open" ∉ close_filters classList)
  ∧ open_filters (open_filters classList) = open_filters classList
  ∧ close_filters (close_filters classList) = close_filters classList
  ∧ ∀ t, t ≠ "open" →
      (t ∈ open_filters classList ↔ t ∈ classList)
      ∧ (t ∈ close_filters classList ↔ t ∈ classList).
Proof.
  unfold open_filters, close_filters, classList_add, classList_remove.
  split_and!.
  - destruct (decide _); [done|]. apply elem_of_app. right. by left.
  - rewrite list_elem_of_filter. tauto.
  - destruct (decide ("open" ∈ classList)) as [Hin|Hout].
    + by rewrite decide_True.
    + rewrite decide_True; [done|]. apply elem_of_app. right. by left.
  - apply filter_all_elem. intros t Ht.
    by apply list_elem_of_filter in Ht as [? _].
  - intros t Ht. split.
    + destruct (decide _); [done|]. rewrite elem_of_app.
      split; [|by left]. intros [?|Hin]; [done|].
      apply list_elem_of_singleton in Hin. done.
    + rewrite list_elem_of_filter. tauto.
Qed.

(** X23. On a panel that is closed, opening and then closing gives back
    the classes as they were, in their order. *)
Theorem close_after_open_restores (classList : list string) :
  "open" ∉ classList →
  close_filters (open_filters classList) = classList.
Proof.
  intros Hout.
  unfold open_filters, close_filters, classList_add, classList_remove.
  rewrite decide_False by done. rewrite filter_app.
  rewrite (filter_all_elem _ classList).
  - rewrite filter_cons_False by (by intros ?). by rewrite app_nil_r.
  - intros t Ht ->. done.
Qed.

Lemma close_after_open_restores_witness :
  close_filters (open_filters ["filters"; "sidebar"])
  = ["filters"; "sidebar"].
Proof.
  apply (close_after_open_restores ["filters"; "sidebar"]).
  rewrite !not_elem_of_cons. split_and!; [done..|]. apply not_elem_of_nil.
Defined.
